(** * Compile-time iterator concept checks of [otus] (src/main.cpp)

    The program is a family of class templates, each of which is a
    function from a candidate type [T] to a compile-time verdict.  A template
    is embedded as a Rocq function from a type to a [result]: [Ok tt] when the
    instantiation compiles, [Error d] with the first diagnostic otherwise.

    What the compiler and the standard headers know about the candidate
    (type traits, [std::iterator_traits], the result type of every operator
    expression, which types a data member can have) is not part of
    src/main.cpp: it is taken as a parameter, the record
    [translation_unit]. *)

From Stdlib Require Import String List Bool.
Import ListNotations.
Open Scope string_scope.

Set Implicit Arguments.

(** ** C++ types *)

Inductive ctype : Type :=
| TVoid
| TBool
| TChar
| TInt
| TLong                      (* std::ptrdiff_t *)
| TClass (name : string)     (* a class type, by its qualified name *)
| TConst (t : ctype)         (* const t *)
| TPtr (t : ctype)           (* t* *)
| TLRef (t : ctype)          (* t& *)
| TRRef (t : ctype).         (* t&& *)

Definition ctype_eq_dec (x y : ctype) : {x = y} + {x <> y}.
Proof. decide equality; apply string_dec. Defined.

(** [std::is_same_v<x, y>] *)
Definition is_same_v (x y : ctype) : bool :=
  if ctype_eq_dec x y then true else false.

(** [const T]: a reference or an already const type is unchanged. *)
Definition add_const (t : ctype) : ctype :=
  match t with
  | TConst _ | TLRef _ | TRRef _ => t
  | _ => TConst t
  end.

(** [T&], with reference collapsing. *)
Definition lref (t : ctype) : ctype :=
  match t with
  | TLRef u | TRRef u => TLRef u
  | _ => TLRef t
  end.

Definition is_reference (t : ctype) : bool :=
  match t with
  | TLRef _ | TRRef _ => true
  | _ => false
  end.

(** ** Expressions of the usage bodies

    A type of an expression is written the way [decltype((e))] gives it: an
    lvalue of type [U] is [TLRef U], an xvalue is [TRRef U], a prvalue is
    [U]. *)

Inductive unop : Type := Deref | PreInc | PostInc | PreDec | PostDec.

Inductive binop : Type :=
| Eq | Ne | Lt | Gt | Le | Ge
| Add | Sub | AddAssign | SubAssign | Subscript.

Inductive expr : Type :=
| Member (name : string) (declared : ctype)   (* a data member of the concept class *)
| Unary (op : unop) (e : expr)
| Binary (op : binop) (l r : expr).

(** ** What the translation unit knows about types *)

Record iterator_traits_members : Type := {
  value_type : ctype;
  difference_type : ctype;
  reference : ctype;
  pointer : ctype;
  iterator_category : ctype
}.

Inductive associated : Type :=
| ValueType | DifferenceType | Reference | Pointer | IteratorCategory.

Definition member_of (a : associated) (m : iterator_traits_members) : ctype :=
  match a with
  | ValueType => value_type m
  | DifferenceType => difference_type m
  | Reference => reference m
  | Pointer => pointer m
  | IteratorCategory => iterator_category m
  end.

Record translation_unit : Type := {
  is_default_constructible_v : ctype -> bool;
  is_copy_constructible_v : ctype -> bool;
  is_copy_assignable_v : ctype -> bool;
  is_destructible_v : ctype -> bool;
  is_swappable_v : ctype -> bool;
  (* whether a non-static data member can have the type: an object type
     that is complete and not an abstract class *)
  is_field_v : ctype -> bool;
  (* std::is_convertible_v<From, To> *)
  is_convertible_v : ctype -> ctype -> bool;
  (* the member types of std::iterator_traits<T>, all five or none *)
  iterator_traits : ctype -> option iterator_traits_members;
  (* overload resolution: the type of [op e] and of [l op r] from the
     operand types, [None] when no operator is viable *)
  unary_operator : unop -> ctype -> option ctype;
  binary_operator : binop -> ctype -> ctype -> option ctype;
  (* a copy constructible type is complete and not abstract *)
  copy_constructible_is_field :
    forall t, is_copy_constructible_v t = true -> is_field_v t = true
}.

(** [decltype(e)] for the operator expressions of the usage bodies (for an
    operator expression [decltype(e)] and [decltype((e))] agree); a data
    member named in a non-const member function is an lvalue. *)
Fixpoint decltype (tu : translation_unit) (e : expr) : option ctype :=
  match e with
  | Member _ declared => Some (lref declared)
  | Unary op e1 =>
      match decltype tu e1 with
      | Some t1 => unary_operator tu op t1
      | None => None
      end
  | Binary op l r =>
      match decltype tu l, decltype tu r with
      | Some tl, Some tr => binary_operator tu op tl tr
      | _, _ => None
      end
  end.

(** ** Compilation results *)

Inductive diagnostic : Type :=
| no_type_named (a : associated)           (* typename std::iterator_traits<T>::a *)
| ill_formed (e : expr)                    (* no viable operator for e *)
| cannot_initialise (target : ctype) (e : expr)
| static_assertion_failed (msg : string)
| invalid_field (name : string) (t : ctype)   (* the member [t name;] cannot be declared *)
| cannot_destroy (name : string) (t : ctype). (* the member's destructor cannot be called *)

Inductive result (A : Type) : Type :=
| Ok (a : A)
| Error (d : diagnostic).

Arguments Ok {A} a.
Arguments Error {A} d.

Definition bind {A B : Type} (r : result A) (k : A -> result B) : result B :=
  match r with
  | Ok a => k a
  | Error d => Error d
  end.

Notation "x <- r ;; k" := (bind r (fun x => k))
  (at level 61, r at next level, right associativity).
Notation "r ;; k" := (bind r (fun _ => k))
  (at level 61, right associativity).

(** [static_assert(c, msg);] *)
Definition static_assert (c : bool) (msg : string) : result unit :=
  if c then Ok tt else Error (static_assertion_failed msg).

(** The type of an expression that has to be well-formed. *)
Definition typeof (tu : translation_unit) (e : expr) : result ctype :=
  match decltype tu e with
  | Some t => Ok t
  | None => Error (ill_formed e)
  end.

(** [static_assert(std::is_same_v<decltype(e), t>, msg);] *)
Definition assert_same (tu : translation_unit) (e : expr) (t : ctype)
    (msg : string) : result unit :=
  te <- typeof tu e ;; static_assert (is_same_v te t) msg.

(** [static_assert(std::is_convertible_v<decltype(e), t>, msg);] *)
Definition assert_convertible (tu : translation_unit) (e : expr) (t : ctype)
    (msg : string) : result unit :=
  te <- typeof tu e ;; static_assert (is_convertible_v tu te t) msg.

(** [e;] and [(void)e;] *)
Definition expression_statement (tu : translation_unit) (e : expr) : result unit :=
  typeof tu e ;; Ok tt.

(** [target x = e;]: copy-initialisation, which is what
    [std::is_convertible] decides. *)
Definition initialise (tu : translation_unit) (target : ctype) (e : expr) : result unit :=
  te <- typeof tu e ;;
  if is_convertible_v tu te target then Ok tt else Error (cannot_initialise target e).

(** [typename std::iterator_traits<T>::a] *)
Definition typename_iterator_traits (tu : translation_unit) (T : ctype)
    (a : associated) : result ctype :=
  match iterator_traits tu T with
  | Some m => Ok (member_of a m)
  | None => Error (no_type_named a)
  end.

(** ** Data members

    A data member of reference type can always be declared and is not
    destroyed; a member of object type needs a type a field can have, and
    the destructor of the class calls the destructor of the member. *)

Definition can_declare (tu : translation_unit) (t : ctype) : bool :=
  is_reference t || is_field_v tu t.

Definition can_destroy (tu : translation_unit) (t : ctype) : bool :=
  is_reference t || is_destructible_v tu t.

(** The class can hold a data member of the type. *)
Definition can_hold (tu : translation_unit) (t : ctype) : bool :=
  can_declare tu t && can_destroy tu t.

(** A member declaration [t name;]. *)
Definition member : Type := (string * ctype)%type.

(** The declaration, when the class is instantiated. *)
Definition declare_member (tu : translation_unit) (m : member) : result unit :=
  if can_declare tu (snd m) then Ok tt else Error (invalid_field (fst m) (snd m)).

(** The destruction, when the destructor of the class is instantiated. *)
Definition destroy_member (tu : translation_unit) (m : member) : result unit :=
  if can_destroy tu (snd m) then Ok tt else Error (cannot_destroy (fst m) (snd m)).

(** ** Concept classes

    A concept class is checked in two steps.  Instantiating the class
    instantiates its base classes, in the order of the base-specifier list,
    and then its own member declarations in the order of the class body:
    the alias declarations that read [std::iterator_traits<T>], then the
    data members.  The usage bodies are instantiated after that, the one of
    the most derived class first; a usage body is the body of the
    destructor of the class, which destroys the data members. *)

Record concept : Type := {
  instantiate : translation_unit -> ctype -> result unit;
  requirements : translation_unit -> ctype -> result unit
}.

Fixpoint sequence (steps : list (result unit)) : result unit :=
  match steps with
  | [] => Ok tt
  | s :: rest => s ;; sequence rest
  end.

(** [struct C : public B1, public B2
      { aliases; BOOST_CONCEPT_USAGE(C) { usage } private: members };] *)
Definition derived (bases : list concept)
    (aliases : translation_unit -> ctype -> result unit)
    (members : translation_unit -> ctype -> result (list member))
    (usage : translation_unit -> ctype -> result unit) : concept :=
  {| instantiate := fun tu T =>
       sequence (map (fun b => instantiate b tu T) bases) ;;
       aliases tu T ;;
       ms <- members tu T ;;
       sequence (map (declare_member tu) ms);
     requirements := fun tu T =>
       (ms <- members tu T ;;
        sequence (map (destroy_member tu) ms) ;;
        usage tu T) ;;
       sequence (map (fun b => requirements b tu T) bases) |}.

(** Modelled from the spec: [BOOST_CONCEPT_ASSERT] and [BOOST_CONCEPT_USAGE]
    of boost/concept_check.hpp, which src/ includes but does not contain.
    Asserting a concept on [T] fails compilation unless the class can be
    instantiated and every usage body it embeds compiles; extraction of the
    associated types comes before any structural requirement. *)
Definition BOOST_CONCEPT_ASSERT (c : concept) (tu : translation_unit)
    (T : ctype) : result unit :=
  instantiate c tu T ;; requirements c tu T.

Definition no_aliases (tu : translation_unit) (T : ctype) : result unit := Ok tt.

Definition no_members (tu : translation_unit) (T : ctype) : result (list member) :=
  Ok [].

Module DefaultConstructible.

Definition usage (tu : translation_unit) (T : ctype) : result unit :=
  static_assert (is_default_constructible_v tu T)
    "Type is not default constructible&".

End DefaultConstructible.

Definition DefaultConstructibleConcept : concept :=
  derived [] no_aliases no_members DefaultConstructible.usage.

Module EqualityComparable.

(* T a; const T b; *)
Definition members (tu : translation_unit) (T : ctype) : result (list member) :=
  Ok [("a", T); ("b", add_const T)].

Definition a (T : ctype) : expr := Member "a" T.
Definition b (T : ctype) : expr := Member "b" (add_const T).

Definition usage (tu : translation_unit) (T : ctype) : result unit :=
  assert_same tu (Binary Eq (a T) (b T)) TBool "Type is not equality comparable" ;;
  assert_same tu (Binary Eq (a T) (a T)) TBool "Type is not equality comparable".

End EqualityComparable.

Definition EqualityComparableConcept : concept :=
  derived [] no_aliases EqualityComparable.members EqualityComparable.usage.

Module Iterator.

Definition aliases (tu : translation_unit) (T : ctype) : result unit :=
  typename_iterator_traits tu T ValueType ;;
  typename_iterator_traits tu T DifferenceType ;;
  typename_iterator_traits tu T Reference ;;
  typename_iterator_traits tu T Pointer ;;
  typename_iterator_traits tu T IteratorCategory ;;
  Ok tt.

(* T t; *)
Definition members (tu : translation_unit) (T : ctype) : result (list member) :=
  Ok [("t", T)].

Definition t (T : ctype) : expr := Member "t" T.

Definition usage (tu : translation_unit) (T : ctype) : result unit :=
  static_assert (is_copy_constructible_v tu T)
    "Type is not an iterator because it is not copy constructible" ;;
  static_assert (is_copy_assignable_v tu T)
    "Type is not an iterator because it is not copy assignable" ;;
  static_assert (is_destructible_v tu T)
    "Type is not an iterator because it is not destructable" ;;
  static_assert (is_swappable_v tu T)
    "Type is not an iterator because it is not swappable" ;;
  (* *t; *)
  expression_statement tu (Unary Deref (t T)) ;;
  (* T &_t = ++t; *)
  initialise tu (lref T) (Unary PreInc (t T)).

End Iterator.

Definition IteratorConcept : concept :=
  derived [] Iterator.aliases Iterator.members Iterator.usage.

Module InputIterator.

Definition value_type tu T := typename_iterator_traits tu T ValueType.
Definition reference tu T := typename_iterator_traits tu T Reference.

Definition aliases (tu : translation_unit) (T : ctype) : result unit :=
  value_type tu T ;; reference tu T ;; Ok tt.

(* T i; const T j; *)
Definition members (tu : translation_unit) (T : ctype) : result (list member) :=
  Ok [("i", T); ("j", add_const T)].

Definition i (T : ctype) : expr := Member "i" T.
Definition j (T : ctype) : expr := Member "j" (add_const T).

Definition usage (tu : translation_unit) (T : ctype) : result unit :=
  value_type <- value_type tu T ;;
  reference <- reference tu T ;;
  assert_same tu (Binary Ne (i T) (j T)) TBool
    "Type is not InputIterator because comparasion is not a bool" ;;
  assert_same tu (Unary Deref (i T)) reference
    "Type is not InputIterator because operator* doesn't reference" ;;
  assert_convertible tu (Unary Deref (i T)) value_type
    "Type is not InputIterator because reference doesn't convertible to value_type" ;;
  assert_same tu (Unary PreInc (i T)) (lref T)
    "Type is not InputIterator because operator++ doesn't reference" ;;
  (* (void)i++; *)
  expression_statement tu (Unary PostInc (i T)) ;;
  assert_convertible tu (Unary Deref (Unary PostInc (i T))) value_type
    "Type is not InputIterator because *i++ doesn't convertible to value_type".

End InputIterator.

Definition InputIteratorConcept : concept :=
  derived [EqualityComparableConcept; IteratorConcept]
    InputIterator.aliases InputIterator.members InputIterator.usage.

Module ForwardIterator.

Definition reference tu T := typename_iterator_traits tu T Reference.

Definition aliases (tu : translation_unit) (T : ctype) : result unit :=
  reference tu T ;; Ok tt.

(* T i; *)
Definition members (tu : translation_unit) (T : ctype) : result (list member) :=
  Ok [("i", T)].

Definition i (T : ctype) : expr := Member "i" T.

Definition usage (tu : translation_unit) (T : ctype) : result unit :=
  reference <- reference tu T ;;
  assert_same tu (Unary PostInc (i T)) T
    "Type is not ForwardIterator because increment doesn't return an iterator" ;;
  assert_same tu (Unary Deref (Unary PostInc (i T))) reference
    "Type is not ForwardIterator because increment doesn't return an iterator".

End ForwardIterator.

Definition ForwardIteratorConcept : concept :=
  derived [DefaultConstructibleConcept; InputIteratorConcept]
    ForwardIterator.aliases ForwardIterator.members ForwardIterator.usage.

Module BidirectionalIterator.

Definition reference tu T := typename_iterator_traits tu T Reference.

Definition aliases (tu : translation_unit) (T : ctype) : result unit :=
  reference tu T ;; Ok tt.

(* T i; *)
Definition members (tu : translation_unit) (T : ctype) : result (list member) :=
  Ok [("i", T)].

Definition i (T : ctype) : expr := Member "i" T.

Definition usage (tu : translation_unit) (T : ctype) : result unit :=
  reference <- reference tu T ;;
  assert_same tu (Unary PreDec (i T)) (lref T)
    "Type is not BidirectionalIterator because decrement operator doesn't return a reference of the type" ;;
  assert_convertible tu (Unary PostDec (i T)) (lref (add_const T))
    "Type is not BidirectionalIterator because decrement operator doesn't convertible to a const reference of the type" ;;
  assert_same tu (Unary Deref (Unary PostDec (i T))) reference
    "Type is not BidirectionalIterator because *i-- doesn't return reference".

End BidirectionalIterator.

Definition BidirectionalIteratorConcept : concept :=
  derived [ForwardIteratorConcept]
    BidirectionalIterator.aliases BidirectionalIterator.members
    BidirectionalIterator.usage.

Module RandomAccessIterator.

Definition value_type tu T := typename_iterator_traits tu T ValueType.
Definition difference_type tu T := typename_iterator_traits tu T DifferenceType.
Definition reference tu T := typename_iterator_traits tu T Reference.

Definition aliases (tu : translation_unit) (T : ctype) : result unit :=
  value_type tu T ;; difference_type tu T ;; reference tu T ;; Ok tt.

(* T i; const T a, b; T& r; difference_type n; *)
Definition members (tu : translation_unit) (T : ctype) : result (list member) :=
  difference_type <- difference_type tu T ;;
  Ok [("i", T); ("a", add_const T); ("b", add_const T); ("r", lref T);
      ("n", difference_type)].

Definition i (T : ctype) : expr := Member "i" T.
Definition a (T : ctype) : expr := Member "a" (add_const T).
Definition b (T : ctype) : expr := Member "b" (add_const T).
Definition r (T : ctype) : expr := Member "r" (lref T).
Definition n (difference_type : ctype) : expr := Member "n" difference_type.

Definition usage (tu : translation_unit) (T : ctype) : result unit :=
  difference_type <- difference_type tu T ;;
  reference <- reference tu T ;;
  let n := n difference_type in
  assert_same tu (Binary AddAssign (r T) n) (lref T)
    "Type is not RandomAccessIterator because an operator+= doesn't return a reference to an iterator" ;;
  assert_same tu (Binary Add (a T) n) T
    "Type is not RandomAccessIterator because a sum of an iterator and difference_type isn't an iterator" ;;
  assert_same tu (Binary Add n (a T)) T
    "Type is not RandomAccessIterator because a sum of difference_type and an iterator isn't an iterator" ;;
  assert_same tu (Binary SubAssign (r T) n) (lref T)
    "Type is not RandomAccessIterator because an operator-= doesn't return a reference to an iterator" ;;
  assert_same tu (Binary Sub (i T) n) T
    "Type is not RandomAccessIterator because a difference of an iterator and a difference_type isn't an iterator" ;;
  assert_same tu (Binary Sub (b T) (a T)) difference_type
    "Type is not RandomAccessIterator because a difference of iterators isn't a difference_type" ;;
  assert_convertible tu (Binary Subscript (i T) n) reference
    "Type is not RandomAccessIterator because index operator doesn't return a reference" ;;
  assert_same tu (Binary Lt (a T) (b T)) TBool
    "Type is not RandomAccessIterator because comparison doesn't return a bool" ;;
  assert_same tu (Binary Gt (a T) (b T)) TBool
    "Type is not RandomAccessIterator because comparison doesn't return a bool" ;;
  assert_same tu (Binary Ge (a T) (b T)) TBool
    "Type is not RandomAccessIterator because comparison doesn't return a bool" ;;
  assert_same tu (Binary Le (a T) (b T)) TBool
    "Type is not RandomAccessIterator because comparison doesn't return a bool".

End RandomAccessIterator.

Definition RandomAccessIteratorConcept : concept :=
  derived [BidirectionalIteratorConcept]
    RandomAccessIterator.aliases RandomAccessIterator.members
    RandomAccessIterator.usage.

(** [T] satisfies the concept: the assertion compiles. *)
Definition satisfies (tu : translation_unit) (c : concept) (T : ctype) : Prop :=
  BOOST_CONCEPT_ASSERT c tu T = Ok tt.

(** The verdict of an assertion as a boolean. *)
Definition compiles (tu : translation_unit) (c : concept) (T : ctype) : bool :=
  match BOOST_CONCEPT_ASSERT c tu T with
  | Ok _ => true
  | Error _ => false
  end.

(** The five levels of the iterator hierarchy, weakest first. *)
Definition iterator_levels : list concept :=
  [ IteratorConcept; InputIteratorConcept; ForwardIteratorConcept;
    BidirectionalIteratorConcept; RandomAccessIteratorConcept ].

(** The ways an assertion fails: an associated type cannot be extracted
    from [std::iterator_traits<T>], a data member of a concept class cannot
    be declared or destroyed, or a requirement of a usage body, a structural
    requirement, is violated. *)
Inductive failure_mode : Type :=
| Extraction | MemberDeclaration | StructuralRequirement.

Definition mode_of (d : diagnostic) : failure_mode :=
  match d with
  | no_type_named _ => Extraction
  | invalid_field _ _ | cannot_destroy _ _ => MemberDeclaration
  | ill_formed _ | cannot_initialise _ _ | static_assertion_failed _ =>
      StructuralRequirement
  end.

Definition structural (d : diagnostic) : Prop :=
  mode_of d = StructuralRequirement.

Definition fails_structurally {A : Type} (r : result A) : Prop :=
  forall d, r = Error d -> structural d.


(** [void tests()]: the four assertions that are compiled. *)
Definition vector_iterator : ctype := TClass "std::vector<int>::iterator".
Definition list_iterator : ctype := TClass "std::list<int>::iterator".
Definition forward_list_iterator : ctype := TClass "std::forward_list<int>::iterator".
Definition istreambuf_iterator : ctype := TClass "std::istreambuf_iterator<int>".
Definition ostreambuf_iterator : ctype := TClass "std::ostreambuf_iterator<int>".
Definition Disabled : ctype := TClass "Disabled".

Definition tests (tu : translation_unit) : result unit :=
  BOOST_CONCEPT_ASSERT RandomAccessIteratorConcept tu vector_iterator ;;
  BOOST_CONCEPT_ASSERT BidirectionalIteratorConcept tu list_iterator ;;
  BOOST_CONCEPT_ASSERT ForwardIteratorConcept tu forward_list_iterator ;;
  BOOST_CONCEPT_ASSERT InputIteratorConcept tu istreambuf_iterator.

(** ** A translation unit to evaluate the checks on

    The declarations of src/main.cpp and of the standard iterators it names,
    together with a few small classes.  Operators are resolved among the
    declared ones by the standard conversions; no class below declares a
    converting constructor or a conversion function. *)

Module Example.

Definition strip_ref (t : ctype) : ctype :=
  match t with TLRef u | TRRef u => u | _ => t end.

Definition strip_const (t : ctype) : ctype :=
  match t with TConst u => u | _ => t end.

Definition remove_cvref (t : ctype) : ctype := strip_const (strip_ref t).

Definition is_arithmetic (t : ctype) : bool :=
  match t with TBool | TChar | TInt | TLong => true | _ => false end.

Definition is_reference (t : ctype) : bool :=
  match t with TLRef _ | TRRef _ => true | _ => false end.

Record class_decl : Type := {
  class_name : string;
  default_constructible : bool;
  copyable : bool;      (* copy constructor, copy assignment, destructor, swap *)
  traits : option iterator_traits_members
}.

(** An operator declaration: parameter types (the implicit object parameter
    of a member first) and return type. *)
Record unary_decl : Type := { u_op : unop; u_param : ctype; u_returns : ctype }.
Record binary_decl : Type :=
  { b_op : binop; b_left : ctype; b_right : ctype; b_returns : ctype }.

Definition unop_eq_dec (x y : unop) : {x = y} + {x <> y}.
Proof. decide equality. Defined.

Definition binop_eq_dec (x y : binop) : {x = y} + {x <> y}.
Proof. decide equality. Defined.

Section Resolution.

Variable classes : list class_decl.
Variable unary_decls : list unary_decl.
Variable binary_decls : list binary_decl.

Definition find_class (t : ctype) : option class_decl :=
  match t with
  | TClass n => find (fun c => String.eqb (class_name c) n) classes
  | _ => None
  end.

Definition object_property (p : class_decl -> bool) (t : ctype) : bool :=
  match strip_const t with
  | TVoid | TLRef _ | TRRef _ => false
  | TClass n => match find_class (TClass n) with Some c => p c | None => false end
  | _ => true
  end.

(** Implicit conversion of an expression of type [from] (value category
    included) to [to]. *)
Definition converts (from to : ctype) : bool :=
  let same_object v := is_same_v (remove_cvref from) v in
  let arithmetic v := is_arithmetic (remove_cvref from) && is_arithmetic v in
  match to with
  | TVoid => is_same_v from TVoid
  | TLRef (TConst v) => same_object v || arithmetic v
  | TLRef v => is_same_v from (TLRef v)
  | TRRef v =>
      match from with
      | TLRef _ => false
      | _ => (same_object (strip_const v)
              && (is_same_v (strip_ref from) (strip_const (strip_ref from))
                  || negb (is_same_v v (strip_const v))))
             || arithmetic (strip_const v)
      end
  | _ =>
      let v := strip_const to in
      (same_object v && object_property copyable v) || arithmetic v
  end.

(** A class of [classes] is complete and not abstract; any other class
    name is a class that is declared and not defined. *)
Definition field_type (t : ctype) : bool := object_property (fun _ => true) t.

Lemma copyable_is_field (t : ctype) :
  object_property copyable t = true -> field_type t = true.
Proof.
  unfold field_type, object_property.
  destruct (strip_const t); try (intros H; exact H).
  destruct (find_class (TClass name)); [reflexivity | intros H; exact H].
Qed.

Definition resolve_unary (op : unop) (arg : ctype) : option ctype :=
  option_map u_returns
    (find (fun d => (if unop_eq_dec (u_op d) op then true else false)
                    && converts arg (u_param d)) unary_decls).

Definition resolve_binary (op : binop) (l r : ctype) : option ctype :=
  option_map b_returns
    (find (fun d => (if binop_eq_dec (b_op d) op then true else false)
                    && converts l (b_left d) && converts r (b_right d)) binary_decls).

Definition unit_of : translation_unit :=
  {| is_default_constructible_v := object_property default_constructible;
     is_copy_constructible_v := object_property copyable;
     is_copy_assignable_v := fun t =>
       object_property copyable t && is_same_v t (strip_const t);
     is_destructible_v := fun t => is_reference t || object_property copyable t;
     is_swappable_v := fun t =>
       object_property copyable t && is_same_v t (strip_const t);
     is_field_v := field_type;
     is_convertible_v := converts;
     iterator_traits := fun t =>
       match find_class t with Some c => traits c | None => None end;
     unary_operator := resolve_unary;
     binary_operator := resolve_binary;
     copy_constructible_is_field := copyable_is_field |}.

End Resolution.

Definition tag (name : string) : ctype := TClass name.

Definition traits_of (value diff ref ptr : ctype) (category : string)
    : option iterator_traits_members :=
  Some {| value_type := value; difference_type := diff; reference := ref;
          pointer := ptr; iterator_category := tag category |}.

(** Classes of the example: the standard iterators named in [tests], the
    class [Disabled] of src/main.cpp, and
    - [Plain]: [struct Plain {};]
    - [Keyed]: [struct Keyed { Keyed(int); bool operator==(const Keyed&) const; };]
    - [MutableEq]: [struct MutableEq { bool operator==(const MutableEq&); };]
    - [ByValue]: an iterator whose [operator++()] returns [ByValue], not
      [ByValue&]. *)
Definition Plain : ctype := TClass "Plain".
Definition Keyed : ctype := TClass "Keyed".
Definition MutableEq : ctype := TClass "MutableEq".
Definition ByValue : ctype := TClass "ByValue".

Definition classes : list class_decl :=
  [ {| class_name := "std::vector<int>::iterator";
       default_constructible := true; copyable := true;
       traits := traits_of TInt TLong (TLRef TInt) (TPtr TInt)
                   "std::random_access_iterator_tag" |};
    {| class_name := "std::list<int>::iterator";
       default_constructible := true; copyable := true;
       traits := traits_of TInt TLong (TLRef TInt) (TPtr TInt)
                   "std::bidirectional_iterator_tag" |};
    {| class_name := "std::forward_list<int>::iterator";
       default_constructible := true; copyable := true;
       traits := traits_of TInt TLong (TLRef TInt) (TPtr TInt)
                   "std::forward_iterator_tag" |};
    {| class_name := "std::istreambuf_iterator<int>";
       default_constructible := true; copyable := true;
       traits := traits_of TInt TLong TInt (TPtr (TConst TInt))
                   "std::input_iterator_tag" |};
    {| class_name := "std::ostreambuf_iterator<int>";
       default_constructible := false; copyable := true;
       traits := traits_of TVoid TVoid TVoid TVoid "std::output_iterator_tag" |};
    {| class_name := "Disabled";
       default_constructible := false; copyable := true; traits := None |};
    {| class_name := "Plain";
       default_constructible := true; copyable := true; traits := None |};
    {| class_name := "Keyed";
       default_constructible := false; copyable := true; traits := None |};
    {| class_name := "MutableEq";
       default_constructible := true; copyable := true; traits := None |};
    {| class_name := "ByValue";
       default_constructible := true; copyable := true;
       traits := traits_of TInt TLong (TLRef TInt) (TPtr TInt)
                   "std::input_iterator_tag" |} ].

Definition unary (op : unop) (param returns : ctype) : unary_decl :=
  {| u_op := op; u_param := param; u_returns := returns |}.

Definition binary (op : binop) (l r returns : ctype) : binary_decl :=
  {| b_op := op; b_left := l; b_right := r; b_returns := returns |}.

Definition cref (t : ctype) : ctype := TLRef (TConst t).

(** [*], [++] and [++(int)] of a standard forward iterator over [int]. *)
Definition forward_operators (I : ctype) : list unary_decl :=
  [ unary Deref (cref I) (TLRef TInt);
    unary PreInc (TLRef I) (TLRef I);
    unary PostInc (TLRef I) I ].

Definition decrement_operators (I : ctype) : list unary_decl :=
  [ unary PreDec (TLRef I) (TLRef I);
    unary PostDec (TLRef I) I ].

Definition equality_operators (I : ctype) : list binary_decl :=
  [ binary Eq (cref I) (cref I) TBool;
    binary Ne (cref I) (cref I) TBool ].

Definition unary_decls : list unary_decl :=
  forward_operators vector_iterator ++ decrement_operators vector_iterator
  ++ forward_operators list_iterator ++ decrement_operators list_iterator
  ++ forward_operators forward_list_iterator
  ++ [ unary Deref (cref istreambuf_iterator) TInt;
       unary PreInc (TLRef istreambuf_iterator) (TLRef istreambuf_iterator);
       unary PostInc (TLRef istreambuf_iterator) istreambuf_iterator;
       unary Deref (TLRef ostreambuf_iterator) (TLRef ostreambuf_iterator);
       unary PreInc (TLRef ostreambuf_iterator) (TLRef ostreambuf_iterator);
       unary PostInc (TLRef ostreambuf_iterator) (TLRef ostreambuf_iterator);
       unary Deref (cref ByValue) (TLRef TInt);
       unary PreInc (TLRef ByValue) ByValue;
       unary PostInc (TLRef ByValue) ByValue ].

Definition binary_decls : list binary_decl :=
  equality_operators vector_iterator
  ++ [ binary Lt (cref vector_iterator) (cref vector_iterator) TBool;
       binary Gt (cref vector_iterator) (cref vector_iterator) TBool;
       binary Le (cref vector_iterator) (cref vector_iterator) TBool;
       binary Ge (cref vector_iterator) (cref vector_iterator) TBool;
       binary AddAssign (TLRef vector_iterator) TLong (TLRef vector_iterator);
       binary SubAssign (TLRef vector_iterator) TLong (TLRef vector_iterator);
       binary Add (cref vector_iterator) TLong vector_iterator;
       binary Add TLong (cref vector_iterator) vector_iterator;
       binary Sub (cref vector_iterator) TLong vector_iterator;
       binary Sub (cref vector_iterator) (cref vector_iterator) TLong;
       binary Subscript (cref vector_iterator) TLong (TLRef TInt) ]
  ++ equality_operators list_iterator
  ++ equality_operators forward_list_iterator
  ++ equality_operators istreambuf_iterator
  ++ equality_operators ByValue
  ++ [ binary Eq (cref Keyed) (cref Keyed) TBool;
       binary Eq (TLRef MutableEq) (cref MutableEq) TBool;
       (* the built-in comparison of int *)
       binary Eq TInt TInt TBool;
       binary Ne TInt TInt TBool ].

Definition tu : translation_unit := unit_of classes unary_decls binary_decls.

End Example.



(** The seven concept classes of the namespace. *)
Definition concepts : list concept :=
  [ DefaultConstructibleConcept; EqualityComparableConcept ] ++ iterator_levels.

(** ** Variants of the example *)

Module Variants.

(** [InputOnly]: a single-pass iterator whose [operator++(int)] returns a
    proxy, which dereferences to the value read. *)
Definition InputOnly : ctype := TClass "InputOnly".
Definition proxy : ctype := TClass "InputOnly::proxy".

Definition classes : list Example.class_decl :=
  Example.classes
  ++ [ {| Example.class_name := "InputOnly";
          Example.default_constructible := true; Example.copyable := true;
          Example.traits :=
            Example.traits_of TInt TLong (TLRef (TConst TInt)) (TPtr (TConst TInt))
              "std::input_iterator_tag" |};
       {| Example.class_name := "InputOnly::proxy";
          Example.default_constructible := false; Example.copyable := true;
          Example.traits := None |} ].

Definition unary_decls : list Example.unary_decl :=
  Example.unary_decls
  ++ [ Example.unary Deref (Example.cref InputOnly) (TLRef (TConst TInt));
       Example.unary PreInc (TLRef InputOnly) (TLRef InputOnly);
       Example.unary PostInc (TLRef InputOnly) proxy;
       Example.unary Deref (Example.cref proxy) TInt ].

Definition binary_decls : list Example.binary_decl :=
  Example.binary_decls ++ Example.equality_operators InputOnly.

Definition tu : translation_unit :=
  Example.unit_of classes unary_decls binary_decls.

(** The example without any binary operator and without any default
    constructor. *)
Definition no_comparisons : translation_unit :=
  Example.unit_of
    (map (fun c => {| Example.class_name := Example.class_name c;
                      Example.default_constructible := false;
                      Example.copyable := Example.copyable c;
                      Example.traits := Example.traits c |}) Example.classes)
    Example.unary_decls [].



End Variants.

(** ** Types that cannot be held as data members *)

Module Members.

(** - [NoDtor]:
      [struct NoDtor { ~NoDtor() = delete; bool operator==(const NoDtor&) const; };]
    - [Opaque]: declared and never defined,
      [struct Opaque; bool operator==(const Opaque&, const Opaque&);]
    - [Strided]: a random-access iterator over [int] whose difference type
      [Distance] is declared and never defined; its operators take a
      [const Distance&]. *)
Definition NoDtor : ctype := TClass "NoDtor".
Definition Opaque : ctype := TClass "Opaque".
Definition Strided : ctype := TClass "Strided".
Definition Distance : ctype := TClass "Distance".

Definition classes : list Example.class_decl :=
  Example.classes
  ++ [ {| Example.class_name := "NoDtor";
          Example.default_constructible := false; Example.copyable := false;
          Example.traits := None |};
       {| Example.class_name := "Strided";
          Example.default_constructible := true; Example.copyable := true;
          Example.traits :=
            Example.traits_of TInt Distance (TLRef TInt) (TPtr TInt)
              "std::random_access_iterator_tag" |} ].

Definition unary_decls : list Example.unary_decl :=
  Example.unary_decls
  ++ Example.forward_operators Strided ++ Example.decrement_operators Strided.

Definition binary_decls : list Example.binary_decl :=
  Example.binary_decls
  ++ Example.equality_operators NoDtor
  ++ Example.equality_operators Opaque
  ++ Example.equality_operators Strided
  ++ [ Example.binary Lt (Example.cref Strided) (Example.cref Strided) TBool;
       Example.binary Gt (Example.cref Strided) (Example.cref Strided) TBool;
       Example.binary Le (Example.cref Strided) (Example.cref Strided) TBool;
       Example.binary Ge (Example.cref Strided) (Example.cref Strided) TBool;
       Example.binary AddAssign (TLRef Strided) (Example.cref Distance)
         (TLRef Strided);
       Example.binary SubAssign (TLRef Strided) (Example.cref Distance)
         (TLRef Strided);
       Example.binary Add (Example.cref Strided) (Example.cref Distance) Strided;
       Example.binary Add (Example.cref Distance) (Example.cref Strided) Strided;
       Example.binary Sub (Example.cref Strided) (Example.cref Distance) Strided;
       Example.binary Sub (Example.cref Strided) (Example.cref Strided) Distance;
       Example.binary Subscript (Example.cref Strided) (Example.cref Distance)
         (TLRef TInt) ].

Definition tu : translation_unit :=
  Example.unit_of classes unary_decls binary_decls.

End Members.

(** The assertions of [tests] compile. *)
Example tests_compile : tests Example.tu = Ok tt.
Proof. vm_compute. reflexivity. Qed.

(** The assertions that [tests] keeps commented out do not compile. *)
Example disabled_assertions_fail :
  map (fun '(c, T) => compiles Example.tu c T)
    [ (RandomAccessIteratorConcept, list_iterator);
      (BidirectionalIteratorConcept, forward_list_iterator);
      (InputIteratorConcept, ostreambuf_iterator);
      (EqualityComparableConcept, Disabled);
      (DefaultConstructibleConcept, Disabled) ]
  = [false; false; false; false; false].
Proof. vm_compute. reflexivity. Qed.

(** ** Statements of the usage bodies *)

Lemma bind_Ok (A B : Type) (r : result A) (k : A -> result B) (b : B) :
  bind r k = Ok b <-> exists a, r = Ok a /\ k a = Ok b.
Proof.
  destruct r as [a | d]; simpl; split.
  - intros H. exists a. split; [reflexivity | exact H].
  - intros [a' [Ha Hk]]. injection Ha as ->. exact Hk.
  - discriminate.
  - intros [a' [Ha _]]. discriminate Ha.
Qed.

Lemma seq_Ok (B : Type) (r : result unit) (k : result B) (b : B) :
  (r ;; k) = Ok b <-> r = Ok tt /\ k = Ok b.
Proof.
  rewrite bind_Ok. split.
  - intros [[] [Hr Hk]]. split; assumption.
  - intros [Hr Hk]. exists tt. split; assumption.
Qed.

Lemma is_same_v_true (x y : ctype) : is_same_v x y = true <-> x = y.
Proof.
  unfold is_same_v. destruct (ctype_eq_dec x y) as [e | ne]; split;
    try reflexivity; try discriminate; try (intros; assumption).
  intros e. contradiction.
Qed.

Lemma static_assert_Ok (c : bool) (msg : string) :
  static_assert c msg = Ok tt <-> c = true.
Proof.
  unfold static_assert. destruct c; split; try reflexivity; discriminate.
Qed.

Section Statements.

Variable tu : translation_unit.

Lemma typeof_Ok (e : expr) (t : ctype) :
  typeof tu e = Ok t <-> decltype tu e = Some t.
Proof.
  unfold typeof. destruct (decltype tu e) as [t' |]; split; intros H;
    try discriminate; injection H as ->; reflexivity.
Qed.

Lemma assert_same_Ok (e : expr) (t : ctype) (msg : string) :
  assert_same tu e t msg = Ok tt <-> decltype tu e = Some t.
Proof.
  unfold assert_same. rewrite bind_Ok. split.
  - intros [te [Hte Hs]]. apply typeof_Ok in Hte.
    apply static_assert_Ok, is_same_v_true in Hs. subst te. exact Hte.
  - intros H. exists t. split.
    + apply typeof_Ok, H.
    + apply static_assert_Ok, is_same_v_true. reflexivity.
Qed.

Lemma assert_convertible_Ok (e : expr) (t : ctype) (msg : string) :
  assert_convertible tu e t msg = Ok tt <->
  exists te, decltype tu e = Some te /\ is_convertible_v tu te t = true.
Proof.
  unfold assert_convertible. rewrite bind_Ok.
  split; intros [te [Hte Hc]]; exists te.
  - split; [apply typeof_Ok, Hte | apply static_assert_Ok in Hc; exact Hc].
  - split; [apply typeof_Ok, Hte | apply static_assert_Ok, Hc].
Qed.

Lemma expression_statement_Ok (e : expr) :
  expression_statement tu e = Ok tt <-> exists te, decltype tu e = Some te.
Proof.
  unfold expression_statement. rewrite bind_Ok.
  split; intros [te H]; exists te.
  - apply typeof_Ok, H.
  - split; [apply typeof_Ok, H | reflexivity].
Qed.

Lemma initialise_Ok (target : ctype) (e : expr) :
  initialise tu target e = Ok tt <->
  exists te, decltype tu e = Some te /\ is_convertible_v tu te target = true.
Proof.
  unfold initialise. rewrite bind_Ok.
  split; intros [te [Hte Hc]]; exists te; split;
    try (apply typeof_Ok; exact Hte).
  - destruct (is_convertible_v tu te target); [reflexivity | discriminate].
  - rewrite Hc. reflexivity.
Qed.

Lemma sequence_map_Ok (A : Type) (f : A -> result unit) (l : list A) :
  sequence (map f l) = Ok tt <-> Forall (fun x => f x = Ok tt) l.
Proof.
  induction l as [| x rest IH]; simpl.
  - split; [constructor | reflexivity].
  - rewrite seq_Ok, IH. split.
    + intros [Hx Hrest]. constructor; assumption.
    + intros H. inversion H; subst. split; assumption.
Qed.

Lemma declare_member_Ok (m : member) :
  declare_member tu m = Ok tt <-> can_declare tu (snd m) = true.
Proof.
  unfold declare_member. destruct (can_declare tu (snd m)); split;
    try reflexivity; discriminate.
Qed.

Lemma destroy_member_Ok (m : member) :
  destroy_member tu m = Ok tt <-> can_destroy tu (snd m) = true.
Proof.
  unfold destroy_member. destruct (can_destroy tu (snd m)); split;
    try reflexivity; discriminate.
Qed.

(** The data members of a class can be declared and destroyed. *)
Definition members_valid (ms : list member) : Prop :=
  Forall (fun m => can_hold tu (snd m) = true) ms.

(** A derived concept is satisfied exactly when every base concept is, its
    alias declarations name types, its data members can be declared and
    destroyed and its own usage body compiles. *)
Lemma satisfies_derived (bases : list concept)
    (aliases : translation_unit -> ctype -> result unit)
    (members : translation_unit -> ctype -> result (list member))
    (usage : translation_unit -> ctype -> result unit) (T : ctype) :
  satisfies tu (derived bases aliases members usage) T <->
  Forall (fun b => satisfies tu b T) bases
  /\ aliases tu T = Ok tt
  /\ (exists ms, members tu T = Ok ms /\ members_valid ms)
  /\ usage tu T = Ok tt.
Proof.
  unfold satisfies, BOOST_CONCEPT_ASSERT, derived, members_valid.
  cbn [instantiate requirements].
  rewrite !seq_Ok, !sequence_map_Ok, !Forall_forall.
  split.
  - intros [(Hi & Ha & Hdecl) [Hown Hr]].
    apply bind_Ok in Hdecl. destruct Hdecl as [ms [Hms Hdecl]].
    apply bind_Ok in Hown. destruct Hown as [ms' [Hms' Hown]].
    rewrite Hms in Hms'. injection Hms' as <-.
    apply seq_Ok in Hown. destruct Hown as [Hdestroy Hu].
    rewrite sequence_map_Ok, Forall_forall in Hdecl, Hdestroy.
    repeat split; try assumption.
    + intros b Hb. apply seq_Ok. split; [apply Hi | apply Hr]; exact Hb.
    + exists ms. split; [exact Hms |].
      apply Forall_forall. intros m Hm. apply andb_true_iff. split.
      * apply declare_member_Ok, Hdecl, Hm.
      * apply destroy_member_Ok, Hdestroy, Hm.
  - intros (Hb & Ha & [ms [Hms Hvalid]] & Hu).
    assert (Hvalid' : forall m, In m ms ->
                        can_declare tu (snd m) = true
                        /\ can_destroy tu (snd m) = true).
    { intros m Hm. apply andb_true_iff.
      rewrite Forall_forall in Hvalid. apply Hvalid, Hm. }
    clear Hvalid. rename Hvalid' into Hvalid.
    split; [split; [| split] | split].
    + intros b Hin. specialize (Hb b Hin). apply seq_Ok in Hb. apply Hb.
    + exact Ha.
    + apply bind_Ok. exists ms. split; [exact Hms |].
      apply sequence_map_Ok, Forall_forall. intros m Hm.
      apply declare_member_Ok, (Hvalid m Hm).
    + apply bind_Ok. exists ms. split; [exact Hms |].
      apply seq_Ok. split; [| exact Hu].
      apply sequence_map_Ok, Forall_forall. intros m Hm.
      apply destroy_member_Ok, (Hvalid m Hm).
    + intros b Hin. specialize (Hb b Hin). apply seq_Ok in Hb. apply Hb.
Qed.

(** The members of a class whose member list does not depend on the
    associated types. *)
Lemma members_valid_Ok (l : list member) :
  (exists ms, Ok l = Ok ms /\ members_valid ms) <-> members_valid l.
Proof.
  split.
  - intros [ms [Hms H]]. injection Hms as <-. exact H.
  - intros H. exists l. split; [reflexivity | exact H].
Qed.

Lemma members_valid_one (x : string) (t : ctype) :
  members_valid [(x, t)] <-> can_hold tu t = true.
Proof.
  unfold members_valid. split.
  - intros H. inversion H; subst. assumption.
  - intros H. constructor; [exact H | constructor].
Qed.

Lemma members_valid_two (x y : string) (t u : ctype) :
  members_valid [(x, t); (y, u)] <-> can_hold tu t = true /\ can_hold tu u = true.
Proof.
  unfold members_valid. split.
  - intros H. inversion H as [| ? ? Ht Hrest]; subst.
    inversion Hrest; subst. split; assumption.
  - intros [Ht Hu]. repeat constructor; assumption.
Qed.

Lemma can_hold_reference (t : ctype) : can_hold tu (lref t) = true.
Proof. destruct t; reflexivity. Qed.

(** A copy constructible and destructible type can be held as a member. *)
Lemma can_hold_copyable (t : ctype) :
  is_copy_constructible_v tu t = true -> is_destructible_v tu t = true ->
  can_hold tu t = true.
Proof.
  intros Hcc Hd. unfold can_hold, can_declare, can_destroy.
  rewrite (copy_constructible_is_field tu t Hcc), Hd, !orb_true_r.
  reflexivity.
Qed.

End Statements.

(** ** Typing of the operator expressions *)

Section Typing.

Variable tu : translation_unit.

Lemma decltype_unary (op : unop) (e : expr) (t : ctype) :
  decltype tu (Unary op e) = Some t <->
  exists t1, decltype tu e = Some t1 /\ unary_operator tu op t1 = Some t.
Proof.
  simpl. destruct (decltype tu e) as [t1 |]; split.
  - intros H. exists t1. split; [reflexivity | exact H].
  - intros [t1' [H1 H2]]. injection H1 as ->. exact H2.
  - discriminate.
  - intros [t1' [H1 _]]. discriminate H1.
Qed.

(** An operator applied to a data member. *)
Lemma decltype_unary_member (op : unop) (x : string) (d t : ctype) :
  decltype tu (Unary op (Member x d)) = Some t <->
  unary_operator tu op (lref d) = Some t.
Proof. simpl. reflexivity. Qed.

Lemma decltype_binary_members (op : binop) (x y : string) (dx dy t : ctype) :
  decltype tu (Binary op (Member x dx) (Member y dy)) = Some t <->
  binary_operator tu op (lref dx) (lref dy) = Some t.
Proof. simpl. reflexivity. Qed.

(** An operator applied to the result of a postfix operator on a member,
    as in [*i++]. *)
Lemma decltype_unary_postfix (op post : unop) (x : string) (d t : ctype) :
  decltype tu (Unary op (Unary post (Member x d))) = Some t <->
  exists R, unary_operator tu post (lref d) = Some R
            /\ unary_operator tu op R = Some t.
Proof. rewrite decltype_unary. setoid_rewrite decltype_unary_member. reflexivity. Qed.

(** Every alias declaration names a type exactly when
    [std::iterator_traits<T>] has its member types. *)
Lemma typename_discard (T : ctype) (a : associated) (k : result unit) :
  (typename_iterator_traits tu T a ;; k) = Ok tt <->
  (exists m, iterator_traits tu T = Some m) /\ k = Ok tt.
Proof.
  unfold typename_iterator_traits.
  destruct (iterator_traits tu T) as [m |]; simpl; split.
  - intros H. split; [exists m; reflexivity | exact H].
  - intros [_ H]. exact H.
  - discriminate.
  - intros [[m Hm] _]. discriminate Hm.
Qed.

Lemma typename_bind (T : ctype) (a : associated) (k : ctype -> result unit) :
  bind (typename_iterator_traits tu T a) k = Ok tt <->
  exists m, iterator_traits tu T = Some m /\ k (member_of a m) = Ok tt.
Proof.
  unfold typename_iterator_traits.
  destruct (iterator_traits tu T) as [m |]; simpl; split.
  - intros H. exists m. split; [reflexivity | exact H].
  - intros [m' [Hm H]]. injection Hm as ->. exact H.
  - discriminate.
  - intros [m' [Hm _]]. discriminate Hm.
Qed.

End Typing.

(** ** The capability hierarchy *)

Lemma result_cases (r : result unit) : r = Ok tt \/ exists d, r = Error d.
Proof.
  destruct r as [[] | d]; [left; reflexivity | right; exists d; reflexivity].
Qed.

(** A satisfied concept class has every base class satisfied. *)
Lemma base_satisfied (tu : translation_unit) (bases : list concept)
    (aliases : translation_unit -> ctype -> result unit)
    (members : translation_unit -> ctype -> result (list member))
    (usage : translation_unit -> ctype -> result unit)
    (T : ctype) (b : concept) :
  In b bases ->
  satisfies tu (derived bases aliases members usage) T -> satisfies tu b T.
Proof.
  intros Hin H. apply satisfies_derived in H. destruct H as [Hb _].
  rewrite Forall_forall in Hb. apply Hb, Hin.
Qed.

Lemma RandomAccess_Bidirectional (tu : translation_unit) (T : ctype) :
  satisfies tu RandomAccessIteratorConcept T ->
  satisfies tu BidirectionalIteratorConcept T.
Proof. apply base_satisfied. left. reflexivity. Qed.

Lemma Bidirectional_Forward (tu : translation_unit) (T : ctype) :
  satisfies tu BidirectionalIteratorConcept T ->
  satisfies tu ForwardIteratorConcept T.
Proof. apply base_satisfied. left. reflexivity. Qed.

Lemma Forward_Input (tu : translation_unit) (T : ctype) :
  satisfies tu ForwardIteratorConcept T ->
  satisfies tu InputIteratorConcept T.
Proof. apply base_satisfied. right. left. reflexivity. Qed.

Lemma Input_Iterator (tu : translation_unit) (T : ctype) :
  satisfies tu InputIteratorConcept T ->
  satisfies tu IteratorConcept T.
Proof. apply base_satisfied. right. left. reflexivity. Qed.

Create HintDb refinement.

#[local] Hint Resolve RandomAccess_Bidirectional Bidirectional_Forward
  Forward_Input Input_Iterator : refinement.

(** C1. Monotonic refinement: a type that satisfies a level of the iterator
    hierarchy satisfies every weaker level (Random-Access, Bidirectional,
    Forward, Input Iterator, Iterator), and a type that fails the Iterator
    check fails every stronger check. *)
Theorem hierarchy_refinement (tu : translation_unit) (T : ctype) :
  (satisfies tu RandomAccessIteratorConcept T ->
     satisfies tu BidirectionalIteratorConcept T
     /\ satisfies tu ForwardIteratorConcept T
     /\ satisfies tu InputIteratorConcept T
     /\ satisfies tu IteratorConcept T)
  /\ (satisfies tu BidirectionalIteratorConcept T ->
        satisfies tu ForwardIteratorConcept T
        /\ satisfies tu InputIteratorConcept T
        /\ satisfies tu IteratorConcept T)
  /\ (satisfies tu ForwardIteratorConcept T ->
        satisfies tu InputIteratorConcept T
        /\ satisfies tu IteratorConcept T)
  /\ (satisfies tu InputIteratorConcept T -> satisfies tu IteratorConcept T)
  /\ (~ satisfies tu IteratorConcept T ->
        ~ satisfies tu InputIteratorConcept T
        /\ ~ satisfies tu ForwardIteratorConcept T
        /\ ~ satisfies tu BidirectionalIteratorConcept T
        /\ ~ satisfies tu RandomAccessIteratorConcept T).
Proof.
  split; [| split; [| split; [| split]]].
  - intros H. repeat split; auto 6 with refinement.
  - intros H. repeat split; auto 6 with refinement.
  - intros H. split; auto 6 with refinement.
  - auto with refinement.
  - intros Hfail.
    repeat split; intros Hs; apply Hfail; auto 6 with refinement.
Qed.

(** The hierarchy on [std::vector<int>::iterator], which satisfies the
    strongest level, and on [Plain], which fails the weakest. *)
Lemma hierarchy_refinement_witness :
  (satisfies Example.tu RandomAccessIteratorConcept vector_iterator
   /\ satisfies Example.tu IteratorConcept vector_iterator)
  /\ (~ satisfies Example.tu IteratorConcept Example.Plain
      /\ ~ satisfies Example.tu RandomAccessIteratorConcept Example.Plain).
Proof.
  split.
  - assert (H : satisfies Example.tu RandomAccessIteratorConcept vector_iterator)
      by (vm_compute; reflexivity).
    split; [exact H |].
    apply (proj1 (hierarchy_refinement Example.tu vector_iterator) H).
  - assert (H : ~ satisfies Example.tu IteratorConcept Example.Plain)
      by (vm_compute; discriminate).
    split; [exact H |].
    apply (proj2 (proj2 (proj2 (proj2
             (hierarchy_refinement Example.tu Example.Plain)))) H).
Defined.

(** ** The Iterator level *)

(** The alias declarations of a concept class are instantiated exactly when
    [std::iterator_traits<T>] exposes the associated types. *)
Lemma Iterator_aliases_Ok (tu : translation_unit) (T : ctype) :
  Iterator.aliases tu T = Ok tt <-> exists m, iterator_traits tu T = Some m.
Proof.
  unfold Iterator.aliases. rewrite !typename_discard. split.
  - intros [H _]. exact H.
  - intros H. repeat split; assumption.
Qed.

(** The statement [T &_t = ++t;] compiles exactly when [++t] is well-formed
    on a mutable [T] and its result initialises a [T&]. *)
Lemma preincrement_statement (tu : translation_unit) (T : ctype) :
  initialise tu (lref T) (Unary PreInc (Iterator.t T)) = Ok tt <->
  exists R, unary_operator tu PreInc (lref T) = Some R
            /\ is_convertible_v tu R (lref T) = true.
Proof.
  rewrite initialise_Ok. unfold Iterator.t.
  setoid_rewrite decltype_unary_member. reflexivity.
Qed.

Lemma IteratorConcept_satisfied (tu : translation_unit) (T : ctype) :
  satisfies tu IteratorConcept T <->
  (exists m, iterator_traits tu T = Some m)
  /\ is_copy_constructible_v tu T = true
  /\ is_copy_assignable_v tu T = true
  /\ is_destructible_v tu T = true
  /\ is_swappable_v tu T = true
  /\ (exists D, unary_operator tu Deref (lref T) = Some D)
  /\ (exists R, unary_operator tu PreInc (lref T) = Some R
                /\ is_convertible_v tu R (lref T) = true).
Proof.
  unfold IteratorConcept. rewrite satisfies_derived, Iterator_aliases_Ok.
  unfold Iterator.usage, Iterator.members.
  rewrite members_valid_Ok, members_valid_one.
  rewrite !seq_Ok, !static_assert_Ok, expression_statement_Ok,
    preincrement_statement.
  unfold Iterator.t. setoid_rewrite decltype_unary_member.
  split.
  - intros (_ & Hm & _ & H). split; assumption.
  - intros (Hm & Hcc & Hca & Hd & H).
    split; [constructor | split; [exact Hm | split]].
    + apply can_hold_copyable; assumption.
    + repeat split; try assumption; apply H.
Qed.

(** C2, as amended. At the Iterator level the pre-increment requirement
    [T &_t = ++t;] is met exactly when [++t] on a mutable [T] is well-formed
    and its result can initialise a [T&]; a type satisfying the Iterator
    check has such a pre-increment, and a pre-increment of result type
    exactly [T&] meets the requirement whenever [T&] converts to itself. *)
Theorem iterator_preincrement_binds_reference (tu : translation_unit) (T : ctype) :
  (initialise tu (lref T) (Unary PreInc (Iterator.t T)) = Ok tt <->
     exists R, unary_operator tu PreInc (lref T) = Some R
               /\ is_convertible_v tu R (lref T) = true)
  /\ (satisfies tu IteratorConcept T ->
        exists R, unary_operator tu PreInc (lref T) = Some R
                  /\ is_convertible_v tu R (lref T) = true)
  /\ (unary_operator tu PreInc (lref T) = Some (lref T) ->
        is_convertible_v tu (lref T) (lref T) = true ->
        initialise tu (lref T) (Unary PreInc (Iterator.t T)) = Ok tt).
Proof.
  split; [apply preincrement_statement | split].
  - intros H. apply IteratorConcept_satisfied in H.
    destruct H as (_ & _ & _ & _ & _ & _ & H). exact H.
  - intros Hop Hconv. apply preincrement_statement.
    exists (lref T). split; assumption.
Qed.

(** C2, as stated, fails on [ByValue], whose [operator++()] returns
    [ByValue]: the result is convertible to [ByValue], every other
    requirement of the Iterator level holds, and the check is refused at
    [T &_t = ++t;]. *)
Lemma preincrement_convertible_to_T_refused :
  decltype Example.tu (Unary PreInc (Iterator.t Example.ByValue))
    = Some Example.ByValue
  /\ is_convertible_v Example.tu Example.ByValue Example.ByValue = true
  /\ initialise Example.tu (lref Example.ByValue)
       (Unary PreInc (Iterator.t Example.ByValue))
     = Error (cannot_initialise (TLRef Example.ByValue)
                (Unary PreInc (Iterator.t Example.ByValue)))
  /\ BOOST_CONCEPT_ASSERT IteratorConcept Example.tu Example.ByValue
     = Error (cannot_initialise (TLRef Example.ByValue)
                (Unary PreInc (Iterator.t Example.ByValue))).
Proof.
  repeat split; vm_compute; reflexivity.
Qed.

(** The amended requirement on [std::vector<int>::iterator], whose
    [operator++()] returns a reference. *)
Lemma iterator_preincrement_binds_reference_witness :
  exists R, unary_operator Example.tu PreInc (lref vector_iterator) = Some R
            /\ is_convertible_v Example.tu R (lref vector_iterator) = true.
Proof.
  apply (proj1 (proj2
           (iterator_preincrement_binds_reference Example.tu vector_iterator))).
  vm_compute. reflexivity.
Defined.

(** ** The levels above Iterator *)

(** The data members [T a; const T b;] of a satisfied
    [EqualityComparableConcept]; the classes derived from it declare no
    member of another type, but for [difference_type n]. *)
Lemma EqualityComparable_holds (tu : translation_unit) (T : ctype) :
  satisfies tu EqualityComparableConcept T ->
  can_hold tu T = true /\ can_hold tu (add_const T) = true.
Proof.
  unfold EqualityComparableConcept. rewrite satisfies_derived.
  unfold EqualityComparable.members.
  rewrite members_valid_Ok, members_valid_two.
  intros (_ & _ & H & _). exact H.
Qed.

Lemma Input_holds (tu : translation_unit) (T : ctype) :
  satisfies tu InputIteratorConcept T ->
  can_hold tu T = true /\ can_hold tu (add_const T) = true.
Proof.
  intros H. apply EqualityComparable_holds.
  revert H. apply base_satisfied. left. reflexivity.
Qed.

Section Levels.

Variable tu : translation_unit.
Variable T : ctype.

Lemma InputIterator_aliases_Ok :
  InputIterator.aliases tu T = Ok tt <-> exists m, iterator_traits tu T = Some m.
Proof.
  unfold InputIterator.aliases, InputIterator.value_type, InputIterator.reference.
  rewrite !typename_discard. split.
  - intros [H _]. exact H.
  - intros H. repeat split; assumption.
Qed.

Lemma ForwardIterator_aliases_Ok :
  ForwardIterator.aliases tu T = Ok tt <-> exists m, iterator_traits tu T = Some m.
Proof.
  unfold ForwardIterator.aliases, ForwardIterator.reference.
  rewrite !typename_discard. split.
  - intros [H _]. exact H.
  - intros H. repeat split; assumption.
Qed.

Lemma BidirectionalIterator_aliases_Ok :
  BidirectionalIterator.aliases tu T = Ok tt <->
  exists m, iterator_traits tu T = Some m.
Proof.
  unfold BidirectionalIterator.aliases, BidirectionalIterator.reference.
  rewrite !typename_discard. split.
  - intros [H _]. exact H.
  - intros H. repeat split; assumption.
Qed.

Lemma RandomAccessIterator_aliases_Ok :
  RandomAccessIterator.aliases tu T = Ok tt <->
  exists m, iterator_traits tu T = Some m.
Proof.
  unfold RandomAccessIterator.aliases, RandomAccessIterator.value_type,
    RandomAccessIterator.difference_type, RandomAccessIterator.reference.
  rewrite !typename_discard. split.
  - intros [H _]. exact H.
  - intros H. repeat split; assumption.
Qed.

(** The usage body of [InputIteratorConcept]. *)
Lemma InputIterator_usage_Ok :
  InputIterator.usage tu T = Ok tt <->
  exists m, iterator_traits tu T = Some m
    /\ binary_operator tu Ne (lref T) (lref (add_const T)) = Some TBool
    /\ unary_operator tu Deref (lref T) = Some (reference m)
    /\ is_convertible_v tu (reference m) (value_type m) = true
    /\ unary_operator tu PreInc (lref T) = Some (lref T)
    /\ exists R, unary_operator tu PostInc (lref T) = Some R
         /\ exists D, unary_operator tu Deref R = Some D
              /\ is_convertible_v tu D (value_type m) = true.
Proof.
  unfold InputIterator.usage, InputIterator.value_type, InputIterator.reference,
    InputIterator.i, InputIterator.j.
  rewrite typename_bind. split.
  - intros [m [Hm H]]. exists m. split; [exact Hm |].
    rewrite typename_bind in H. destruct H as [m' [Hm' H]].
    rewrite Hm in Hm'. injection Hm' as <-. simpl member_of in H.
    rewrite !seq_Ok, !assert_same_Ok, !assert_convertible_Ok,
      expression_statement_Ok in H.
    destruct H as (Hne & Hderef & [D1 [HD1 Hc1]] & Hinc & _ & [D [HD Hc]]).
    apply decltype_binary_members in Hne.
    apply decltype_unary_member in Hderef, Hinc, HD1.
    apply decltype_unary_postfix in HD. destruct HD as [R [HR HD]].
    rewrite Hderef in HD1. injection HD1 as <-.
    repeat split; try assumption.
    exists R. split; [exact HR |]. exists D. split; assumption.
  - intros [m (Hm & Hne & Hderef & Hc1 & Hinc & [R [HR [D [HD Hc]]]])].
    exists m. split; [exact Hm |].
    rewrite typename_bind. exists m. split; [exact Hm |]. simpl member_of.
    rewrite !seq_Ok, !assert_same_Ok, !assert_convertible_Ok,
      expression_statement_Ok.
    repeat split.
    + apply decltype_binary_members, Hne.
    + apply decltype_unary_member, Hderef.
    + exists (reference m). split; [apply decltype_unary_member, Hderef | exact Hc1].
    + apply decltype_unary_member, Hinc.
    + exists R. apply decltype_unary_member, HR.
    + exists D. split; [| exact Hc].
      apply decltype_unary_postfix. exists R. split; assumption.
Qed.

(** The usage body of [ForwardIteratorConcept]. *)
Lemma ForwardIterator_usage_Ok :
  ForwardIterator.usage tu T = Ok tt <->
  exists m, iterator_traits tu T = Some m
    /\ unary_operator tu PostInc (lref T) = Some T
    /\ unary_operator tu Deref T = Some (reference m).
Proof.
  unfold ForwardIterator.usage, ForwardIterator.reference, ForwardIterator.i.
  rewrite typename_bind. simpl member_of.
  split; intros [m [Hm H]]; exists m; (split; [exact Hm |]).
  - rewrite seq_Ok, !assert_same_Ok in H. destruct H as [Hpost Hderef].
    apply decltype_unary_member in Hpost.
    apply decltype_unary_postfix in Hderef. destruct Hderef as [R [HR HD]].
    rewrite Hpost in HR. injection HR as <-. split; assumption.
  - destruct H as [Hpost Hderef]. rewrite seq_Ok, !assert_same_Ok. split.
    + apply decltype_unary_member, Hpost.
    + apply decltype_unary_postfix. exists T. split; assumption.
Qed.

(** The usage body of [BidirectionalIteratorConcept]. *)
Lemma BidirectionalIterator_usage_Ok :
  BidirectionalIterator.usage tu T = Ok tt <->
  exists m, iterator_traits tu T = Some m
    /\ unary_operator tu PreDec (lref T) = Some (lref T)
    /\ exists R, unary_operator tu PostDec (lref T) = Some R
         /\ is_convertible_v tu R (lref (add_const T)) = true
         /\ unary_operator tu Deref R = Some (reference m).
Proof.
  unfold BidirectionalIterator.usage, BidirectionalIterator.reference,
    BidirectionalIterator.i.
  rewrite typename_bind. simpl member_of.
  split; intros [m [Hm H]]; exists m; (split; [exact Hm |]).
  - rewrite !seq_Ok, !assert_same_Ok, assert_convertible_Ok in H.
    destruct H as (Hpre & [R [HR Hc]] & Hderef).
    apply decltype_unary_member in Hpre, HR.
    apply decltype_unary_postfix in Hderef. destruct Hderef as [R' [HR' HD]].
    rewrite HR in HR'. injection HR' as <-.
    split; [exact Hpre |]. exists R. repeat split; assumption.
  - destruct H as (Hpre & [R (HR & Hc & HD)]).
    rewrite !seq_Ok, !assert_same_Ok, assert_convertible_Ok. repeat split.
    + apply decltype_unary_member, Hpre.
    + exists R. split; [apply decltype_unary_member, HR | exact Hc].
    + apply decltype_unary_postfix. exists R. split; assumption.
Qed.

End Levels.

Lemma lref_idempotent (t : ctype) : lref (lref t) = lref t.
Proof. destruct t; reflexivity. Qed.

(** The usage body of [RandomAccessIteratorConcept]; [n] is the type of the
    member [difference_type n] as an operand. *)
Lemma RandomAccessIterator_usage_Ok (tu : translation_unit) (T : ctype) :
  RandomAccessIterator.usage tu T = Ok tt <->
  exists m, iterator_traits tu T = Some m
    /\ binary_operator tu AddAssign (lref T) (lref (difference_type m)) = Some (lref T)
    /\ binary_operator tu Add (lref (add_const T)) (lref (difference_type m)) = Some T
    /\ binary_operator tu Add (lref (difference_type m)) (lref (add_const T)) = Some T
    /\ binary_operator tu SubAssign (lref T) (lref (difference_type m)) = Some (lref T)
    /\ binary_operator tu Sub (lref T) (lref (difference_type m)) = Some T
    /\ binary_operator tu Sub (lref (add_const T)) (lref (add_const T))
       = Some (difference_type m)
    /\ (exists X, binary_operator tu Subscript (lref T) (lref (difference_type m)) = Some X
                  /\ is_convertible_v tu X (reference m) = true)
    /\ binary_operator tu Lt (lref (add_const T)) (lref (add_const T)) = Some TBool
    /\ binary_operator tu Gt (lref (add_const T)) (lref (add_const T)) = Some TBool
    /\ binary_operator tu Ge (lref (add_const T)) (lref (add_const T)) = Some TBool
    /\ binary_operator tu Le (lref (add_const T)) (lref (add_const T)) = Some TBool.
Proof.
  unfold RandomAccessIterator.usage, RandomAccessIterator.difference_type,
    RandomAccessIterator.reference, RandomAccessIterator.i,
    RandomAccessIterator.a, RandomAccessIterator.b, RandomAccessIterator.r,
    RandomAccessIterator.n.
  rewrite typename_bind. split.
  - intros [m [Hm H]]. exists m. split; [exact Hm |].
    rewrite typename_bind in H. destruct H as [m' [Hm' H]].
    rewrite Hm in Hm'. injection Hm' as <-. simpl member_of in H.
    rewrite !seq_Ok, !assert_same_Ok, assert_convertible_Ok in H.
    setoid_rewrite decltype_binary_members in H.
    rewrite !lref_idempotent in H. exact H.
  - intros [m [Hm H]]. exists m. split; [exact Hm |].
    rewrite typename_bind. exists m. split; [exact Hm |]. simpl member_of.
    rewrite !seq_Ok, !assert_same_Ok, assert_convertible_Ok.
    setoid_rewrite decltype_binary_members.
    rewrite !lref_idempotent. exact H.
Qed.

(** ** The checks, level by level *)

(** C3. The Input Iterator check passes exactly when the Iterator and the
    Equality-Comparable checks pass and, with the associated types [m] of
    [T]: [i != j] on a mutable and a const instance has type [bool]; [*i]
    has type exactly [reference] and converts to [value_type]; [++i] has
    type exactly [T&]; [i++] is well-formed and [*i++] converts to
    [value_type]. *)
Theorem input_iterator_check (tu : translation_unit) (T : ctype) :
  satisfies tu InputIteratorConcept T <->
  satisfies tu IteratorConcept T
  /\ satisfies tu EqualityComparableConcept T
  /\ exists m, iterator_traits tu T = Some m
       /\ binary_operator tu Ne (lref T) (lref (add_const T)) = Some TBool
       /\ unary_operator tu Deref (lref T) = Some (reference m)
       /\ is_convertible_v tu (reference m) (value_type m) = true
       /\ unary_operator tu PreInc (lref T) = Some (lref T)
       /\ exists R, unary_operator tu PostInc (lref T) = Some R
            /\ exists D, unary_operator tu Deref R = Some D
                 /\ is_convertible_v tu D (value_type m) = true.
Proof.
  unfold InputIteratorConcept.
  rewrite satisfies_derived, InputIterator_aliases_Ok, InputIterator_usage_Ok.
  unfold InputIterator.members. rewrite members_valid_Ok, members_valid_two.
  split.
  - intros (Hbases & _ & _ & Hown).
    inversion Hbases as [| ? ? Heq Hrest]; subst.
    inversion Hrest as [| ? ? Hit _]; subst.
    repeat split; assumption.
  - intros (Hit & Heq & Hown). split; [| split; [| split]].
    + constructor; [exact Heq |]. constructor; [exact Hit | constructor].
    + destruct Hown as [m [Hm _]]. exists m. exact Hm.
    + apply EqualityComparable_holds, Heq.
    + exact Hown.
Qed.

(** C4. The Forward Iterator check passes exactly when the Input Iterator
    and the Default-Constructible checks pass and two more requirements
    hold: [i++] has type exactly [T], and [*i++] has type exactly
    [reference]. *)
Theorem forward_iterator_check (tu : translation_unit) (T : ctype) :
  satisfies tu ForwardIteratorConcept T <->
  satisfies tu InputIteratorConcept T
  /\ satisfies tu DefaultConstructibleConcept T
  /\ exists m, iterator_traits tu T = Some m
       /\ unary_operator tu PostInc (lref T) = Some T
       /\ unary_operator tu Deref T = Some (reference m).
Proof.
  unfold ForwardIteratorConcept.
  rewrite satisfies_derived, ForwardIterator_aliases_Ok, ForwardIterator_usage_Ok.
  unfold ForwardIterator.members. rewrite members_valid_Ok, members_valid_one.
  split.
  - intros (Hbases & _ & _ & Hown).
    inversion Hbases as [| ? ? Hdc Hrest]; subst.
    inversion Hrest as [| ? ? Hin _]; subst.
    repeat split; assumption.
  - intros (Hin & Hdc & Hown). split; [| split; [| split]].
    + constructor; [exact Hdc |]. constructor; [exact Hin | constructor].
    + destruct Hown as [m [Hm _]]. exists m. exact Hm.
    + apply (Input_holds Hin).
    + exact Hown.
Qed.

(** C5. The Bidirectional Iterator check passes exactly when the Forward
    Iterator check passes and three more requirements hold: [--i] has type
    exactly [T&]; [i--] converts to [const T&]; and [*i--] has type exactly
    [reference]. *)
Theorem bidirectional_iterator_check (tu : translation_unit) (T : ctype) :
  satisfies tu BidirectionalIteratorConcept T <->
  satisfies tu ForwardIteratorConcept T
  /\ exists m, iterator_traits tu T = Some m
       /\ unary_operator tu PreDec (lref T) = Some (lref T)
       /\ exists R, unary_operator tu PostDec (lref T) = Some R
            /\ is_convertible_v tu R (lref (add_const T)) = true
            /\ unary_operator tu Deref R = Some (reference m).
Proof.
  unfold BidirectionalIteratorConcept.
  rewrite satisfies_derived, BidirectionalIterator_aliases_Ok,
    BidirectionalIterator_usage_Ok.
  unfold BidirectionalIterator.members.
  rewrite members_valid_Ok, members_valid_one.
  split.
  - intros (Hbases & _ & _ & Hown).
    inversion Hbases as [| ? ? Hfw _]; subst. split; assumption.
  - intros (Hfw & Hown). split; [| split; [| split]].
    + constructor; [exact Hfw | constructor].
    + destruct Hown as [m [Hm _]]. exists m. exact Hm.
    + apply (Input_holds (Forward_Input Hfw)).
    + exact Hown.
Qed.

(** The data members [T i; const T a, b; T& r; difference_type n;]. *)
Lemma RandomAccessIterator_members_valid (tu : translation_unit) (T : ctype) :
  (exists ms, RandomAccessIterator.members tu T = Ok ms /\ members_valid tu ms)
  <-> exists m, iterator_traits tu T = Some m
        /\ can_hold tu T = true
        /\ can_hold tu (add_const T) = true
        /\ can_hold tu (difference_type m) = true.
Proof.
  unfold RandomAccessIterator.members, RandomAccessIterator.difference_type,
    typename_iterator_traits, members_valid.
  destruct (iterator_traits tu T) as [m |]; cbn [bind member_of].
  - split.
    + intros [ms [Hms H]]. injection Hms as <-. exists m.
      inversion H as [| ? ? Hi H1]; subst.
      inversion H1 as [| ? ? Ha H2]; subst.
      inversion H2 as [| ? ? _ H3]; subst.
      inversion H3 as [| ? ? _ H4]; subst.
      inversion H4 as [| ? ? Hn _]; subst.
      repeat split; assumption.
    + intros [m' (Hm' & Hi & Ha & Hn)]. injection Hm' as <-.
      eexists. split; [reflexivity |].
      repeat constructor; try assumption. apply can_hold_reference.
  - split.
    + intros [ms [Hms _]]. discriminate Hms.
    + intros [m' [Hm' _]]. discriminate Hm'.
Qed.

(** C6, as amended. The Random-Access Iterator check passes exactly when
    the Bidirectional Iterator check passes, the difference type can be
    held as the data member [difference_type n;] and, with that [n]:
    [r += n] and [r -= n] have type exactly [T&]; [a + n], [n + a] and
    [i - n] have type exactly [T]; [b - a] has type exactly
    [difference_type]; [i[n]] converts to [reference]; and [a < b], [a > b],
    [a >= b], [a <= b] on const instances have type exactly [bool]. *)
Theorem random_access_iterator_check (tu : translation_unit) (T : ctype) :
  satisfies tu RandomAccessIteratorConcept T <->
  satisfies tu BidirectionalIteratorConcept T
  /\ exists m, iterator_traits tu T = Some m
    /\ can_hold tu (difference_type m) = true
    /\ binary_operator tu AddAssign (lref T) (lref (difference_type m)) = Some (lref T)
    /\ binary_operator tu Add (lref (add_const T)) (lref (difference_type m)) = Some T
    /\ binary_operator tu Add (lref (difference_type m)) (lref (add_const T)) = Some T
    /\ binary_operator tu SubAssign (lref T) (lref (difference_type m)) = Some (lref T)
    /\ binary_operator tu Sub (lref T) (lref (difference_type m)) = Some T
    /\ binary_operator tu Sub (lref (add_const T)) (lref (add_const T))
       = Some (difference_type m)
    /\ (exists X, binary_operator tu Subscript (lref T) (lref (difference_type m)) = Some X
                  /\ is_convertible_v tu X (reference m) = true)
    /\ binary_operator tu Lt (lref (add_const T)) (lref (add_const T)) = Some TBool
    /\ binary_operator tu Gt (lref (add_const T)) (lref (add_const T)) = Some TBool
    /\ binary_operator tu Ge (lref (add_const T)) (lref (add_const T)) = Some TBool
    /\ binary_operator tu Le (lref (add_const T)) (lref (add_const T)) = Some TBool.
Proof.
  unfold RandomAccessIteratorConcept.
  rewrite satisfies_derived, RandomAccessIterator_aliases_Ok,
    RandomAccessIterator_members_valid, RandomAccessIterator_usage_Ok.
  split.
  - intros (Hbases & _ & [m (Hm & _ & _ & Hn)] & [m' [Hm' Hown]]).
    inversion Hbases as [| ? ? Hbi _]; subst.
    rewrite Hm in Hm'. injection Hm' as <-.
    split; [exact Hbi |]. exists m. split; [exact Hm | split; assumption].
  - intros (Hbi & [m (Hm & Hn & Hown)]).
    destruct (Input_holds (Forward_Input (Bidirectional_Forward Hbi)))
      as [Hi Ha].
    split; [| split; [| split]].
    + constructor; [exact Hbi | constructor].
    + exists m. exact Hm.
    + exists m. repeat split; assumption.
    + exists m. split; assumption.
Qed.

(** C6, as stated, fails on [Strided]: the Bidirectional check passes and
    every operator requirement holds, but the member [difference_type n;]
    has a type that is not complete, and the class cannot be instantiated. *)
Lemma random_access_difference_type_member :
  satisfies Members.tu BidirectionalIteratorConcept Members.Strided
  /\ (exists m, iterator_traits Members.tu Members.Strided = Some m
    /\ difference_type m = Members.Distance
    /\ binary_operator Members.tu AddAssign (lref Members.Strided)
         (lref (difference_type m)) = Some (lref Members.Strided)
    /\ binary_operator Members.tu Add (lref (add_const Members.Strided))
         (lref (difference_type m)) = Some Members.Strided
    /\ binary_operator Members.tu Add (lref (difference_type m))
         (lref (add_const Members.Strided)) = Some Members.Strided
    /\ binary_operator Members.tu SubAssign (lref Members.Strided)
         (lref (difference_type m)) = Some (lref Members.Strided)
    /\ binary_operator Members.tu Sub (lref Members.Strided)
         (lref (difference_type m)) = Some Members.Strided
    /\ binary_operator Members.tu Sub (lref (add_const Members.Strided))
         (lref (add_const Members.Strided)) = Some (difference_type m)
    /\ (exists X, binary_operator Members.tu Subscript (lref Members.Strided)
                    (lref (difference_type m)) = Some X
                  /\ is_convertible_v Members.tu X (reference m) = true)
    /\ binary_operator Members.tu Lt (lref (add_const Members.Strided))
         (lref (add_const Members.Strided)) = Some TBool
    /\ binary_operator Members.tu Gt (lref (add_const Members.Strided))
         (lref (add_const Members.Strided)) = Some TBool
    /\ binary_operator Members.tu Ge (lref (add_const Members.Strided))
         (lref (add_const Members.Strided)) = Some TBool
    /\ binary_operator Members.tu Le (lref (add_const Members.Strided))
         (lref (add_const Members.Strided)) = Some TBool)
  /\ BOOST_CONCEPT_ASSERT RandomAccessIteratorConcept Members.tu Members.Strided
     = Error (invalid_field "n" Members.Distance).
Proof.
  split; [vm_compute; reflexivity | split; [| vm_compute; reflexivity]].
  eexists. split; [vm_compute; reflexivity |].
  repeat split; try (vm_compute; reflexivity).
  exists (TLRef TInt). split; vm_compute; reflexivity.
Qed.

(** The amended check on [std::vector<int>::iterator]. *)
Lemma random_access_iterator_check_witness :
  satisfies Example.tu RandomAccessIteratorConcept vector_iterator.
Proof.
  apply (proj2 (random_access_iterator_check Example.tu vector_iterator)).
  split; [vm_compute; reflexivity |].
  eexists. split; [vm_compute; reflexivity |].
  repeat split; try (vm_compute; reflexivity).
  exists (TLRef TInt). split; vm_compute; reflexivity.
Defined.

(** ** The primitive checks *)

Lemma compiles_satisfies (tu : translation_unit) (c : concept) (T : ctype) :
  compiles tu c T = true <-> satisfies tu c T.
Proof.
  unfold compiles, satisfies.
  destruct (BOOST_CONCEPT_ASSERT c tu T) as [[] | d]; split;
    try reflexivity; discriminate.
Qed.

Lemma EqualityComparable_satisfied (tu : translation_unit) (T : ctype) :
  satisfies tu EqualityComparableConcept T <->
  can_hold tu T = true
  /\ can_hold tu (add_const T) = true
  /\ binary_operator tu Eq (lref T) (lref (add_const T)) = Some TBool
  /\ binary_operator tu Eq (lref T) (lref T) = Some TBool.
Proof.
  unfold EqualityComparableConcept. rewrite satisfies_derived.
  unfold EqualityComparable.usage, EqualityComparable.members,
    EqualityComparable.a, EqualityComparable.b.
  rewrite members_valid_Ok, members_valid_two.
  rewrite seq_Ok, !assert_same_Ok, !decltype_binary_members.
  split.
  - intros (_ & _ & [Ha Hb] & H). repeat split; try assumption; apply H.
  - intros (Ha & Hb & H).
    split; [constructor | split; [reflexivity | split; [split; assumption | exact H]]].
Qed.

(** C7, as amended. The Equality-Comparable check passes exactly when the
    class can hold its data members [T a; const T b;] and [a == b], with
    [a] a mutable and [b] a const instance, and [a == a] are both defined
    with result type exactly [bool]; when either is undefined or has another
    type, the assertion fails. *)
Theorem equality_comparable_check (tu : translation_unit) (T : ctype) :
  (satisfies tu EqualityComparableConcept T <->
     can_hold tu T = true
     /\ can_hold tu (add_const T) = true
     /\ binary_operator tu Eq (lref T) (lref (add_const T)) = Some TBool
     /\ binary_operator tu Eq (lref T) (lref T) = Some TBool)
  /\ (binary_operator tu Eq (lref T) (lref (add_const T)) <> Some TBool
      \/ binary_operator tu Eq (lref T) (lref T) <> Some TBool ->
      exists d, BOOST_CONCEPT_ASSERT EqualityComparableConcept tu T = Error d).
Proof.
  split; [apply EqualityComparable_satisfied |].
  intros Hbad.
  destruct (result_cases (BOOST_CONCEPT_ASSERT EqualityComparableConcept tu T))
    as [Hok | Herr]; [| exact Herr].
  apply EqualityComparable_satisfied in Hok.
  destruct Hok as (_ & _ & Hab & Haa).
  destruct Hbad as [Hbad | Hbad]; contradiction.
Qed.

(** C7, as stated, fails on [NoDtor] and on [Opaque]: both comparisons are
    defined with result type [bool], but the member [T a;] cannot be
    destroyed, respectively declared, and the assertion is refused. *)
Lemma equality_comparable_needs_members :
  (binary_operator Members.tu Eq (lref Members.NoDtor)
     (lref (add_const Members.NoDtor)) = Some TBool
   /\ binary_operator Members.tu Eq (lref Members.NoDtor) (lref Members.NoDtor)
      = Some TBool
   /\ BOOST_CONCEPT_ASSERT EqualityComparableConcept Members.tu Members.NoDtor
      = Error (cannot_destroy "a" Members.NoDtor))
  /\ (binary_operator Members.tu Eq (lref Members.Opaque)
        (lref (add_const Members.Opaque)) = Some TBool
      /\ binary_operator Members.tu Eq (lref Members.Opaque) (lref Members.Opaque)
         = Some TBool
      /\ BOOST_CONCEPT_ASSERT EqualityComparableConcept Members.tu Members.Opaque
         = Error (invalid_field "a" Members.Opaque)).
Proof.
  repeat split; vm_compute; reflexivity.
Qed.

(** The check on [Keyed], which passes, and on [Disabled], whose
    [operator==] is deleted. *)
Lemma equality_comparable_check_witness :
  satisfies Example.tu EqualityComparableConcept Example.Keyed
  /\ exists d, BOOST_CONCEPT_ASSERT EqualityComparableConcept Example.tu Disabled
               = Error d.
Proof.
  split.
  - apply (proj1 (equality_comparable_check Example.tu Example.Keyed)).
    repeat split; vm_compute; reflexivity.
  - apply (proj2 (equality_comparable_check Example.tu Disabled)).
    left. vm_compute. discriminate.
Defined.

(** C9. The primitive checks are independent of each other and of the
    Iterator check: every combination of verdicts of Default-Constructible
    and Equality-Comparable occurs, and every combination of verdicts of
    either primitive and of the Iterator check occurs. *)
Theorem primitive_checks_independent :
  (forall dc eq : bool, exists T,
      compiles Example.tu DefaultConstructibleConcept T = dc
      /\ compiles Example.tu EqualityComparableConcept T = eq)
  /\ (forall dc it : bool, exists T,
      compiles Example.tu DefaultConstructibleConcept T = dc
      /\ compiles Example.tu IteratorConcept T = it)
  /\ (forall eq it : bool, exists T,
      compiles Example.tu EqualityComparableConcept T = eq
      /\ compiles Example.tu IteratorConcept T = it).
Proof.
  split; [| split].
  - intros [|] [|].
    + exists TInt. split; vm_compute; reflexivity.
    + exists Example.Plain. split; vm_compute; reflexivity.
    + exists Example.Keyed. split; vm_compute; reflexivity.
    + exists Disabled. split; vm_compute; reflexivity.
  - intros [|] [|].
    + exists vector_iterator. split; vm_compute; reflexivity.
    + exists Example.Plain. split; vm_compute; reflexivity.
    + exists ostreambuf_iterator. split; vm_compute; reflexivity.
    + exists Disabled. split; vm_compute; reflexivity.
  - intros [|] [|].
    + exists vector_iterator. split; vm_compute; reflexivity.
    + exists Example.Keyed. split; vm_compute; reflexivity.
    + exists ostreambuf_iterator. split; vm_compute; reflexivity.
    + exists Disabled. split; vm_compute; reflexivity.
Qed.

(** The comparisons of [EqualityComparableConcept] are resolved with the
    member [a], declared [T a], as left operand. *)
Lemma EqualityComparable_reads_mutable_left (tu1 tu2 : translation_unit) (T : ctype) :
  can_declare tu1 T = can_declare tu2 T ->
  can_declare tu1 (add_const T) = can_declare tu2 (add_const T) ->
  can_destroy tu1 T = can_destroy tu2 T ->
  can_destroy tu1 (add_const T) = can_destroy tu2 (add_const T) ->
  (forall r, binary_operator tu1 Eq (lref T) r = binary_operator tu2 Eq (lref T) r) ->
  BOOST_CONCEPT_ASSERT EqualityComparableConcept tu1 T
  = BOOST_CONCEPT_ASSERT EqualityComparableConcept tu2 T.
Proof.
  intros Hda Hdb Hxa Hxb Hagree.
  unfold BOOST_CONCEPT_ASSERT, EqualityComparableConcept, derived,
    EqualityComparable.usage, EqualityComparable.members, assert_same, typeof,
    declare_member, destroy_member,
    EqualityComparable.a, EqualityComparable.b.
  simpl. rewrite Hda, Hdb, Hxa, Hxb, !Hagree. reflexivity.
Qed.

(** No [operator==] of the example accepts a const [MutableEq] on the left. *)
Lemma MutableEq_const_left (r : ctype) :
  binary_operator Example.tu Eq (TLRef (TConst Example.MutableEq)) r = None.
Proof.
  unfold Example.tu, Example.unit_of, binary_operator, Example.resolve_binary.
  cbn. reflexivity.
Qed.

(** C10. The Equality-Comparable check never compares with a const left
    operand: besides the data members [T a; const T b;] of the class, its
    verdict depends only on the comparisons whose left operand is the
    mutable member [a], and it passes on [MutableEq], whose [operator==] is
    a non-const member and accepts no const left operand. *)
Theorem equality_left_operand_mutable :
  (forall (tu1 tu2 : translation_unit) (T : ctype),
      can_declare tu1 T = can_declare tu2 T ->
      can_declare tu1 (add_const T) = can_declare tu2 (add_const T) ->
      can_destroy tu1 T = can_destroy tu2 T ->
      can_destroy tu1 (add_const T) = can_destroy tu2 (add_const T) ->
      (forall r, binary_operator tu1 Eq (lref T) r
                 = binary_operator tu2 Eq (lref T) r) ->
      BOOST_CONCEPT_ASSERT EqualityComparableConcept tu1 T
      = BOOST_CONCEPT_ASSERT EqualityComparableConcept tu2 T)
  /\ (forall r, binary_operator Example.tu Eq
                  (lref (add_const Example.MutableEq)) r = None)
  /\ satisfies Example.tu EqualityComparableConcept Example.MutableEq.
Proof.
  split; [exact EqualityComparable_reads_mutable_left | split].
  - exact MutableEq_const_left.
  - apply EqualityComparable_satisfied. repeat split; vm_compute; reflexivity.
Qed.

(** ** Extraction of the associated types *)

Section Failure_modes.

Variable tu : translation_unit.

Lemma Ok_structurally (A : Type) (a : A) : fails_structurally (Ok a).
Proof. intros d H. discriminate H. Qed.

Lemma bind_structurally (A B : Type) (r : result A) (k : A -> result B) :
  fails_structurally r -> (forall a, fails_structurally (k a)) ->
  fails_structurally (bind r k).
Proof.
  intros Hr Hk d. destruct r as [a | d']; simpl.
  - apply Hk.
  - intros H. injection H as <-. apply (Hr d'). reflexivity.
Qed.

Lemma static_assert_structurally (c : bool) (msg : string) :
  fails_structurally (static_assert c msg).
Proof.
  intros d. unfold static_assert. destruct c; intros H.
  - discriminate H.
  - injection H as <-. reflexivity.
Qed.

Lemma typeof_structurally (e : expr) : fails_structurally (typeof tu e).
Proof.
  intros d. unfold typeof. destruct (decltype tu e); intros H.
  - discriminate H.
  - injection H as <-. reflexivity.
Qed.

Lemma assert_same_structurally (e : expr) (t : ctype) (msg : string) :
  fails_structurally (assert_same tu e t msg).
Proof.
  apply bind_structurally; [apply typeof_structurally |].
  intros te. apply static_assert_structurally.
Qed.

Lemma assert_convertible_structurally (e : expr) (t : ctype) (msg : string) :
  fails_structurally (assert_convertible tu e t msg).
Proof.
  apply bind_structurally; [apply typeof_structurally |].
  intros te. apply static_assert_structurally.
Qed.

Lemma expression_statement_structurally (e : expr) :
  fails_structurally (expression_statement tu e).
Proof.
  apply bind_structurally; [apply typeof_structurally |].
  intros te. apply Ok_structurally.
Qed.

Lemma initialise_structurally (target : ctype) (e : expr) :
  fails_structurally (initialise tu target e).
Proof.
  apply bind_structurally; [apply typeof_structurally |].
  intros te d. destruct (is_convertible_v tu te target); intros H.
  - discriminate H.
  - injection H as <-. reflexivity.
Qed.







Variable T : ctype.

(** Without associated types, extraction fails at the first alias. *)
Lemma Iterator_aliases_None :
  iterator_traits tu T = None ->
  Iterator.aliases tu T = Error (no_type_named ValueType).
Proof.
  intros Hnone. unfold Iterator.aliases, typename_iterator_traits.
  rewrite Hnone. reflexivity.
Qed.

Variable m : iterator_traits_members.
Hypothesis exposed : iterator_traits tu T = Some m.

Lemma typename_exposed (a : associated) :
  typename_iterator_traits tu T a = Ok (member_of a m).
Proof. unfold typename_iterator_traits. rewrite exposed. reflexivity. Qed.

Lemma typename_structurally (a : associated) :
  fails_structurally (typename_iterator_traits tu T a).
Proof. rewrite typename_exposed. apply Ok_structurally. Qed.

End Failure_modes.

Create HintDb structurally.

#[local] Hint Resolve Ok_structurally static_assert_structurally
  typeof_structurally assert_same_structurally
  assert_convertible_structurally
  expression_statement_structurally initialise_structurally
  typename_structurally : structurally.


Section Exposed.

Variable tu : translation_unit.
Variable T : ctype.
Variable m : iterator_traits_members.
Hypothesis exposed : iterator_traits tu T = Some m.









End Exposed.





(** ** Further properties of the checks *)

(** The Iterator check passes exactly when the associated types are exposed,
    [T] is copy constructible, copy assignable, destructible and swappable,
    [*t] is well-formed and the result of [++t] initialises a [T&]. *)
Theorem iterator_check (tu : translation_unit) (T : ctype) :
  satisfies tu IteratorConcept T <->
  (exists m, iterator_traits tu T = Some m)
  /\ is_copy_constructible_v tu T = true
  /\ is_copy_assignable_v tu T = true
  /\ is_destructible_v tu T = true
  /\ is_swappable_v tu T = true
  /\ (exists D, unary_operator tu Deref (lref T) = Some D)
  /\ (exists R, unary_operator tu PreInc (lref T) = Some R
                /\ is_convertible_v tu R (lref T) = true).
Proof.
  unfold IteratorConcept. rewrite satisfies_derived.
  split.
  - intros (_ & Haliases & _ & Husage).
    apply Iterator_aliases_Ok in Haliases.
    unfold Iterator.usage in Husage.
    rewrite !seq_Ok, !static_assert_Ok, expression_statement_Ok,
      preincrement_statement in Husage.
    destruct Husage as (Hcc & Hca & Hd & Hs & [D HD] & Hinc).
    apply decltype_unary_member in HD.
    repeat split; try assumption. exists D. exact HD.
  - intros (Hm & Hcc & Hca & Hd & Hs & [D HD] & Hinc).
    split; [constructor | split; [| split]].
    + apply Iterator_aliases_Ok, Hm.
    + (* the member [T t;]: a copy constructible, destructible type *)
      unfold Iterator.members.
      apply members_valid_Ok, members_valid_one, can_hold_copyable; assumption.
    + unfold Iterator.usage.
      rewrite !seq_Ok, !static_assert_Ok, expression_statement_Ok,
        preincrement_statement.
      repeat split; try assumption.
      exists D. apply decltype_unary_member, HD.
Qed.

(** The hierarchy embeds the primitive checks: an Input Iterator is
    equality comparable, and a Forward, Bidirectional or Random-Access
    Iterator is also default constructible. *)
Theorem hierarchy_embeds_primitives (tu : translation_unit) (T : ctype) :
  (satisfies tu InputIteratorConcept T ->
     satisfies tu EqualityComparableConcept T)
  /\ (satisfies tu ForwardIteratorConcept T ->
        satisfies tu DefaultConstructibleConcept T
        /\ satisfies tu EqualityComparableConcept T)
  /\ (satisfies tu BidirectionalIteratorConcept T ->
        satisfies tu DefaultConstructibleConcept T
        /\ satisfies tu EqualityComparableConcept T)
  /\ (satisfies tu RandomAccessIteratorConcept T ->
        satisfies tu DefaultConstructibleConcept T
        /\ satisfies tu EqualityComparableConcept T).
Proof.
  assert (Hin : satisfies tu InputIteratorConcept T ->
                satisfies tu EqualityComparableConcept T).
  { apply base_satisfied. left. reflexivity. }
  assert (Hfw : satisfies tu ForwardIteratorConcept T ->
                satisfies tu DefaultConstructibleConcept T
                /\ satisfies tu EqualityComparableConcept T).
  { intros H. split.
    - revert H. apply base_satisfied. left. reflexivity.
    - apply Hin, Forward_Input, H. }
  split; [exact Hin | split; [exact Hfw | split]].
  - intros H. apply Hfw, Bidirectional_Forward, H.
  - intros H. apply Hfw, Bidirectional_Forward, RandomAccess_Bidirectional, H.
Qed.

Lemma hierarchy_embeds_primitives_witness :
  satisfies Example.tu DefaultConstructibleConcept vector_iterator
  /\ satisfies Example.tu EqualityComparableConcept vector_iterator.
Proof.
  apply (proj2 (proj2 (proj2
           (hierarchy_embeds_primitives Example.tu vector_iterator)))).
  vm_compute. reflexivity.
Defined.

Lemma Forall_pair (A : Type) (P : A -> Prop) (x y : A) :
  Forall P [x; y] <-> P x /\ P y.
Proof.
  split.
  - intros H. inversion H as [| ? ? Hx Hrest]; subst.
    inversion Hrest as [| ? ? Hy _]; subst. split; assumption.
  - intros [Hx Hy]. repeat constructor; assumption.
Qed.

(** At the Forward level the post-increment requirements of the Input level
    add nothing: the check passes exactly when the primitive and the
    Iterator checks pass, [i != j] has type [bool], [*i] has type
    [reference], which converts to [value_type], [++i] has type [T&], [i++]
    has type [T] and [*i++] has type [reference]. *)
Theorem forward_subsumes_input_postincrement (tu : translation_unit) (T : ctype) :
  satisfies tu ForwardIteratorConcept T <->
  satisfies tu DefaultConstructibleConcept T
  /\ satisfies tu EqualityComparableConcept T
  /\ satisfies tu IteratorConcept T
  /\ exists m, iterator_traits tu T = Some m
       /\ binary_operator tu Ne (lref T) (lref (add_const T)) = Some TBool
       /\ unary_operator tu Deref (lref T) = Some (reference m)
       /\ is_convertible_v tu (reference m) (value_type m) = true
       /\ unary_operator tu PreInc (lref T) = Some (lref T)
       /\ unary_operator tu PostInc (lref T) = Some T
       /\ unary_operator tu Deref T = Some (reference m).
Proof.
  unfold ForwardIteratorConcept, InputIteratorConcept.
  rewrite satisfies_derived, Forall_pair, satisfies_derived, Forall_pair.
  rewrite ForwardIterator_aliases_Ok, InputIterator_aliases_Ok,
    ForwardIterator_usage_Ok, InputIterator_usage_Ok.
  unfold ForwardIterator.members, InputIterator.members.
  rewrite !members_valid_Ok, members_valid_one, members_valid_two.
  split.
  - intros ((Hdc & (Heq & Hit) & _ & _ & Hinput) & _ & _ & Hforward).
    destruct Hinput as [m (Hm & Hne & Hderef & Hconv & Hinc & _)].
    destruct Hforward as [m' (Hm' & Hpost & Hstar)].
    rewrite Hm in Hm'. injection Hm' as <-.
    repeat split; try assumption.
    exists m. repeat split; assumption.
  - intros (Hdc & Heq & Hit & [m (Hm & Hne & Hderef & Hconv & Hinc & Hpost & Hstar)]).
    assert (Hsome : exists m0, iterator_traits tu T = Some m0)
      by (exists m; exact Hm).
    destruct (EqualityComparable_holds Heq) as [Hi Hj].
    repeat split; try assumption.
    + exists m. repeat split; try assumption.
      exists T. split; [exact Hpost |].
      exists (reference m). split; assumption.
    + exists m. repeat split; assumption.
Qed.

(** Every dereference of a Bidirectional Iterator has the same type: [*i],
    [*i++] and [*i--] all have type exactly [reference], and both [++i] and
    [--i] have type exactly [T&]. *)
Theorem bidirectional_dereference_coherent (tu : translation_unit) (T : ctype) :
  satisfies tu BidirectionalIteratorConcept T ->
  exists m R,
    iterator_traits tu T = Some m
    /\ unary_operator tu Deref (lref T) = Some (reference m)
    /\ unary_operator tu PostInc (lref T) = Some T
    /\ unary_operator tu Deref T = Some (reference m)
    /\ unary_operator tu PostDec (lref T) = Some R
    /\ unary_operator tu Deref R = Some (reference m)
    /\ unary_operator tu PreInc (lref T) = Some (lref T)
    /\ unary_operator tu PreDec (lref T) = Some (lref T).
Proof.
  intros Hbi.
  pose proof (Bidirectional_Forward Hbi) as Hfw.
  pose proof (Forward_Input Hfw) as Hin.
  unfold ForwardIteratorConcept in Hfw. unfold InputIteratorConcept in Hin.
  apply satisfies_derived in Hfw, Hin.
  destruct Hfw as (_ & _ & _ & Hfw). destruct Hin as (_ & _ & _ & Hin).
  apply ForwardIterator_usage_Ok in Hfw. apply InputIterator_usage_Ok in Hin.
  destruct Hin as [m (Hm & _ & Hderef & _ & Hinc & _)].
  destruct Hfw as [m0 (Hm0 & Hpost & Hstar)].
  rewrite Hm in Hm0. injection Hm0 as <-.
  unfold BidirectionalIteratorConcept in Hbi.
  apply satisfies_derived in Hbi. destruct Hbi as (_ & _ & _ & Husage).
  apply BidirectionalIterator_usage_Ok in Husage.
  destruct Husage as [m' (Hm' & Hdec & [R (HR & _ & HRstar)])].
  rewrite Hm in Hm'. injection Hm' as <-.
  exists m, R. repeat split; assumption.
Qed.

Lemma bidirectional_dereference_coherent_witness :
  exists m R,
    iterator_traits Example.tu list_iterator = Some m
    /\ unary_operator Example.tu Deref (lref list_iterator) = Some (reference m)
    /\ unary_operator Example.tu PostInc (lref list_iterator) = Some list_iterator
    /\ unary_operator Example.tu Deref list_iterator = Some (reference m)
    /\ unary_operator Example.tu PostDec (lref list_iterator) = Some R
    /\ unary_operator Example.tu Deref R = Some (reference m)
    /\ unary_operator Example.tu PreInc (lref list_iterator) = Some (lref list_iterator)
    /\ unary_operator Example.tu PreDec (lref list_iterator) = Some (lref list_iterator).
Proof.
  apply (@bidirectional_dereference_coherent Example.tu list_iterator).
  vm_compute. reflexivity.
Defined.

(** ** Diagnostics *)

Lemma can_hold_true (tu : translation_unit) (t : ctype) :
  can_hold tu t = true <-> can_declare tu t = true /\ can_destroy tu t = true.
Proof. unfold can_hold. apply andb_true_iff. Qed.

(** For a type that the class can hold as its data members [T a;
    const T b;], a missing [operator==] is reported as an ill-formed
    expression and not by the message of the [static_assert]; the message
    is what a comparison of another result type than [bool] gets.
    [a == b] is examined before [a == a]. *)
Theorem equality_comparable_diagnostics (tu : translation_unit) (T : ctype) :
  can_hold tu T = true ->
  can_hold tu (add_const T) = true ->
  let a := EqualityComparable.a T in
  let b := EqualityComparable.b T in
  let ab := binary_operator tu Eq (lref T) (lref (add_const T)) in
  let aa := binary_operator tu Eq (lref T) (lref T) in
  let verdict := BOOST_CONCEPT_ASSERT EqualityComparableConcept tu T in
  let message := static_assertion_failed "Type is not equality comparable" in
  (ab = None -> verdict = Error (ill_formed (Binary Eq a b)))
  /\ (forall R, ab = Some R -> R <> TBool -> verdict = Error message)
  /\ (ab = Some TBool -> aa = None -> verdict = Error (ill_formed (Binary Eq a a)))
  /\ (ab = Some TBool -> forall R, aa = Some R -> R <> TBool ->
      verdict = Error message).
Proof.
  intros Ha Hb.
  apply can_hold_true in Ha, Hb. destruct Ha as [Hda Hxa], Hb as [Hdb Hxb].
  assert (Hneq : forall R, R <> TBool -> is_same_v R TBool = false).
  { intros R HR. destruct (is_same_v R TBool) eqn:E; [| reflexivity].
    apply is_same_v_true in E. contradiction. }
  cbv zeta.
  unfold BOOST_CONCEPT_ASSERT, EqualityComparableConcept, derived,
    EqualityComparable.usage, EqualityComparable.members, assert_same, typeof,
    declare_member, destroy_member,
    EqualityComparable.a, EqualityComparable.b.
  cbn [instantiate requirements map sequence no_aliases bind decltype fst snd].
  rewrite Hda, Hdb, Hxa, Hxb.
  cbn [bind].
  repeat split.
  - intros ->. reflexivity.
  - intros R -> HR. cbn. rewrite (Hneq R HR). reflexivity.
  - intros -> ->. reflexivity.
  - intros -> R -> HR. cbn. rewrite (Hneq R HR). reflexivity.
Qed.

(** On [Disabled], whose [operator==] is deleted, the assertion reports the
    expression [a == b]. *)
Lemma equality_comparable_diagnostics_witness :
  BOOST_CONCEPT_ASSERT EqualityComparableConcept Example.tu Disabled
  = Error (ill_formed (Binary Eq (EqualityComparable.a Disabled)
                                 (EqualityComparable.b Disabled))).
Proof.
  assert (Ha : can_hold Example.tu Disabled = true) by (vm_compute; reflexivity).
  assert (Hb : can_hold Example.tu (add_const Disabled) = true)
    by (vm_compute; reflexivity).
  apply (proj1 (@equality_comparable_diagnostics Example.tu Disabled Ha Hb)).
  vm_compute. reflexivity.
Defined.

(** With the associated types exposed and for a type that the class can
    hold as its data member [T t;], the Iterator check reports the first
    requirement of its usage body that is violated, each with a diagnostic
    of its own: the four type properties in the order copy constructible,
    copy assignable, destructible, swappable, then [*t], then [++t], then
    the initialisation of [T&] from [++t]. *)
Theorem iterator_diagnostics (tu : translation_unit) (T : ctype)
    (m : iterator_traits_members) :
  iterator_traits tu T = Some m ->
  can_hold tu T = true ->
  let t := Iterator.t T in
  let verdict := BOOST_CONCEPT_ASSERT IteratorConcept tu T in
  (is_copy_constructible_v tu T = false ->
     verdict = Error (static_assertion_failed
       "Type is not an iterator because it is not copy constructible"))
  /\ (is_copy_constructible_v tu T = true ->
      (is_copy_assignable_v tu T = false ->
         verdict = Error (static_assertion_failed
           "Type is not an iterator because it is not copy assignable"))
      /\ (is_copy_assignable_v tu T = true ->
          (is_destructible_v tu T = false ->
             verdict = Error (static_assertion_failed
               "Type is not an iterator because it is not destructable"))
          /\ (is_destructible_v tu T = true ->
              (is_swappable_v tu T = false ->
                 verdict = Error (static_assertion_failed
                   "Type is not an iterator because it is not swappable"))
              /\ (is_swappable_v tu T = true ->
                  (unary_operator tu Deref (lref T) = None ->
                     verdict = Error (ill_formed (Unary Deref t)))
                  /\ (forall D, unary_operator tu Deref (lref T) = Some D ->
                      (unary_operator tu PreInc (lref T) = None ->
                         verdict = Error (ill_formed (Unary PreInc t)))
                      /\ (forall R, unary_operator tu PreInc (lref T) = Some R ->
                          is_convertible_v tu R (lref T) = false ->
                          verdict = Error (cannot_initialise (lref T)
                                             (Unary PreInc t)))))))).
Proof.
  intros Hm Hhold. cbv zeta.
  apply can_hold_true in Hhold. destruct Hhold as [Hdeclare Hdestroy].
  unfold BOOST_CONCEPT_ASSERT, IteratorConcept, derived, Iterator.aliases,
    Iterator.usage, Iterator.members, declare_member, destroy_member,
    expression_statement, initialise, typeof, Iterator.t.
  cbn [instantiate requirements map sequence bind decltype fst snd].
  rewrite !(@typename_exposed tu T m Hm).
  cbn [bind]. rewrite Hdeclare, Hdestroy. cbn [bind].
  split; [intros ->; reflexivity | intros ->].
  split; [intros ->; reflexivity | intros ->].
  split; [intros ->; reflexivity | intros ->].
  split; [intros ->; reflexivity | intros ->].
  cbn [static_assert bind].
  split; [intros ->; reflexivity | intros D ->].
  cbn [bind].
  split; [intros ->; reflexivity | intros R -> Hconv].
  cbn [bind]. rewrite Hconv. reflexivity.
Qed.

(** On [ByValue] every requirement before the last holds, and the
    initialisation of [ByValue&] from [++t] is what is reported. *)
Lemma iterator_diagnostics_witness :
  BOOST_CONCEPT_ASSERT IteratorConcept Example.tu Example.ByValue
  = Error (cannot_initialise (lref Example.ByValue)
             (Unary PreInc (Iterator.t Example.ByValue))).
Proof.
  assert (Hm : iterator_traits Example.tu Example.ByValue
               = Some {| value_type := TInt; difference_type := TLong;
                         reference := TLRef TInt; pointer := TPtr TInt;
                         iterator_category :=
                           Example.tag "std::input_iterator_tag" |})
    by (vm_compute; reflexivity).
  assert (Hhold : can_hold Example.tu Example.ByValue = true)
    by (vm_compute; reflexivity).
  pose proof (@iterator_diagnostics _ _ _ Hm Hhold) as H. cbv zeta in H.
  destruct H as [_ H].
  destruct (H ltac:(vm_compute; reflexivity)) as [_ H1].
  destruct (H1 ltac:(vm_compute; reflexivity)) as [_ H2].
  destruct (H2 ltac:(vm_compute; reflexivity)) as [_ H3].
  destruct (H3 ltac:(vm_compute; reflexivity)) as [_ H4].
  destruct (H4 (TLRef TInt) ltac:(vm_compute; reflexivity)) as [_ H5].
  apply (H5 Example.ByValue); vm_compute; reflexivity.
Defined.

(** The class [RandomAccessIteratorConcept<std::ostreambuf_iterator<int>>]
    cannot be instantiated: the difference type is [void], and
    [difference_type n;] is no member declaration. *)
Example ostreambuf_difference_type_member :
  instantiate RandomAccessIteratorConcept Example.tu ostreambuf_iterator
  = Error (invalid_field "n" TVoid).
Proof. vm_compute. reflexivity. Qed.

(** ** What the checks read *)

(** The Iterator check reads whether the associated types are exposed,
    whether [T] can be the type of a data member, the four type properties
    of [T], [*t] and [++t] on a mutable [T], and the conversions to [T&];
    it uses no comparison, no other operator and no default constructor.
    Translation units that agree on what it reads give the same verdict,
    with the same diagnostic. *)
Theorem iterator_check_reads (tu1 tu2 : translation_unit) (T : ctype) :
  (iterator_traits tu1 T = None <-> iterator_traits tu2 T = None) ->
  is_field_v tu1 T = is_field_v tu2 T ->
  is_copy_constructible_v tu1 T = is_copy_constructible_v tu2 T ->
  is_copy_assignable_v tu1 T = is_copy_assignable_v tu2 T ->
  is_destructible_v tu1 T = is_destructible_v tu2 T ->
  is_swappable_v tu1 T = is_swappable_v tu2 T ->
  unary_operator tu1 Deref (lref T) = unary_operator tu2 Deref (lref T) ->
  unary_operator tu1 PreInc (lref T) = unary_operator tu2 PreInc (lref T) ->
  (forall R, is_convertible_v tu1 R (lref T) = is_convertible_v tu2 R (lref T)) ->
  BOOST_CONCEPT_ASSERT IteratorConcept tu1 T
  = BOOST_CONCEPT_ASSERT IteratorConcept tu2 T.
Proof.
  intros Htraits Hfield Hcc Hca Hd Hs Hderef Hinc Hconv.
  unfold BOOST_CONCEPT_ASSERT, IteratorConcept, derived, Iterator.aliases,
    Iterator.usage, Iterator.members, declare_member, destroy_member,
    can_declare, can_destroy,
    expression_statement, initialise, typeof, Iterator.t,
    typename_iterator_traits.
  cbn [instantiate requirements map sequence bind decltype fst snd].
  destruct (iterator_traits tu1 T) as [m1 |] eqn:E1,
           (iterator_traits tu2 T) as [m2 |] eqn:E2.
  - cbn [bind]. rewrite Hfield, Hcc, Hca, Hd, Hs, Hderef, Hinc.
    destruct (is_reference T || is_field_v tu2 T); [| reflexivity].
    cbn [bind].
    destruct (is_reference T || is_destructible_v tu2 T); [| reflexivity].
    cbn [bind].
    destruct (is_copy_constructible_v tu2 T); [| reflexivity].
    destruct (is_copy_assignable_v tu2 T); [| reflexivity].
    destruct (is_destructible_v tu2 T); [| reflexivity].
    destruct (is_swappable_v tu2 T); [| reflexivity].
    cbn [static_assert bind].
    destruct (unary_operator tu2 Deref (lref T)); [| reflexivity].
    destruct (unary_operator tu2 PreInc (lref T)) as [R |]; [| reflexivity].
    cbn [bind]. rewrite Hconv. reflexivity.
  - destruct Htraits as [_ H]. discriminate (H eq_refl).
  - destruct Htraits as [H _]. discriminate (H eq_refl).
  - reflexivity.
Qed.

(** On [std::vector<int>::iterator] the verdict is the same in the unit
    without comparisons and default constructors. *)
Lemma iterator_check_reads_witness :
  BOOST_CONCEPT_ASSERT IteratorConcept Example.tu vector_iterator
  = BOOST_CONCEPT_ASSERT IteratorConcept Variants.no_comparisons vector_iterator.
Proof.
  apply iterator_check_reads; try (vm_compute; reflexivity).
  split; vm_compute; discriminate.
Defined.



(** ** The assertions of [tests] *)

Lemma Input_EqualityComparable (tu : translation_unit) (T : ctype) :
  satisfies tu InputIteratorConcept T -> satisfies tu EqualityComparableConcept T.
Proof. apply base_satisfied. left. reflexivity. Qed.

Lemma Forward_DefaultConstructible (tu : translation_unit) (T : ctype) :
  satisfies tu ForwardIteratorConcept T -> satisfies tu DefaultConstructibleConcept T.
Proof. apply base_satisfied. left. reflexivity. Qed.

#[local] Hint Resolve Input_EqualityComparable Forward_DefaultConstructible
  : refinement.

(** When [tests] compiles, every assertion weaker than one of its four
    holds as well: all seven on
    [std::vector<int>::iterator]; all but Random-Access on
    [std::list<int>::iterator]; the primitives, Iterator, Input and Forward
    on [std::forward_list<int>::iterator]; Equality-Comparable, Iterator
    and Input on [std::istreambuf_iterator<int>]. *)
Theorem tests_guarantee (tu : translation_unit) :
  tests tu = Ok tt ->
  Forall (fun c => satisfies tu c vector_iterator) concepts
  /\ Forall (fun c => satisfies tu c list_iterator)
       [ DefaultConstructibleConcept; EqualityComparableConcept;
         IteratorConcept; InputIteratorConcept; ForwardIteratorConcept;
         BidirectionalIteratorConcept ]
  /\ Forall (fun c => satisfies tu c forward_list_iterator)
       [ DefaultConstructibleConcept; EqualityComparableConcept;
         IteratorConcept; InputIteratorConcept; ForwardIteratorConcept ]
  /\ Forall (fun c => satisfies tu c istreambuf_iterator)
       [ EqualityComparableConcept; IteratorConcept; InputIteratorConcept ].
Proof.
  unfold tests. rewrite !seq_Ok.
  intros (Hvector & Hlist & Hforward & Hinput).
  fold (satisfies tu RandomAccessIteratorConcept vector_iterator) in Hvector.
  fold (satisfies tu BidirectionalIteratorConcept list_iterator) in Hlist.
  fold (satisfies tu ForwardIteratorConcept forward_list_iterator) in Hforward.
  fold (satisfies tu InputIteratorConcept istreambuf_iterator) in Hinput.
  unfold concepts, iterator_levels.
  repeat split; repeat (apply Forall_cons; [auto 8 with refinement |]);
    apply Forall_nil.
Qed.

Lemma tests_guarantee_witness :
  Forall (fun c => satisfies Example.tu c vector_iterator) concepts
  /\ Forall (fun c => satisfies Example.tu c list_iterator)
       [ DefaultConstructibleConcept; EqualityComparableConcept;
         IteratorConcept; InputIteratorConcept; ForwardIteratorConcept;
         BidirectionalIteratorConcept ]
  /\ Forall (fun c => satisfies Example.tu c forward_list_iterator)
       [ DefaultConstructibleConcept; EqualityComparableConcept;
         IteratorConcept; InputIteratorConcept; ForwardIteratorConcept ]
  /\ Forall (fun c => satisfies Example.tu c istreambuf_iterator)
       [ EqualityComparableConcept; IteratorConcept; InputIteratorConcept ].
Proof.
  apply (@tests_guarantee Example.tu). vm_compute. reflexivity.
Defined.

(** Each level of the hierarchy is strictly stronger than the one below:
    some type satisfies Iterator and not Input, some Input and not Forward,
    some Forward and not Bidirectional, some Bidirectional and not
    Random-Access. *)
Theorem hierarchy_strict :
  (exists T, compiles Variants.tu IteratorConcept T = true
             /\ compiles Variants.tu InputIteratorConcept T = false)
  /\ (exists T, compiles Variants.tu InputIteratorConcept T = true
                /\ compiles Variants.tu ForwardIteratorConcept T = false)
  /\ (exists T, compiles Variants.tu ForwardIteratorConcept T = true
                /\ compiles Variants.tu BidirectionalIteratorConcept T = false)
  /\ (exists T, compiles Variants.tu BidirectionalIteratorConcept T = true
                /\ compiles Variants.tu RandomAccessIteratorConcept T = false).
Proof.
  split; [| split; [| split]].
  - exists ostreambuf_iterator. split; vm_compute; reflexivity.
  - exists Variants.InputOnly. split; vm_compute; reflexivity.
  - exists forward_list_iterator. split; vm_compute; reflexivity.
  - exists list_iterator. split; vm_compute; reflexivity.
Qed.
